(** * Authentication core of the event-manager backend

    A shallow embedding of [app/config/__init__.py], [app/api/dependencies.py],
    [app/api/exceptions.py] and [app/api/auth/auth.py], together with the
    behaviour of the three third-party components those files call into
    (python-jose's [jwt], passlib's [CryptContext] with the bcrypt scheme and
    FastAPI's [HTTPBearer]).

    Conventions.
    - A Python call that may raise is a value of [result]: [Return v] or
      [Raise e], with [e] an element of [exn] named after the Python class.
    - The wall clock is an explicit argument [now], in whole seconds since
      the epoch, which is the resolution of the NumericDate claims that
      python-jose writes and compares.
    - Randomness (the bcrypt salt) is an explicit argument [rng].
    - The user table is a finite map keyed by its unique e-mail column. *)

From Stdlib Require Import ZArith String Ascii List Bool Lia.
From stdpp Require Import base option gmap strings.

Local Open Scope Z_scope.

(* ===================================================================== *)
(** ** Exceptions and results *)
(* ===================================================================== *)

(** The exception classes that occur in the modelled code.  [JWSError] is
    internal to python-jose; [ExpiredSignatureError] and [JWTClaimsError]
    are subclasses of [JWTError]; [UnknownHashError], [MalformedHashError]
    and [PasswordValueError] are passlib's, [IntegrityError] the ORM's. *)
Inductive exn : Type :=
| JWSError (msg : string)
| JWTError (msg : string)
| ExpiredSignatureError (msg : string)
| JWTClaimsError (msg : string)
| HTTPException (status_code : Z) (detail : string)
                (headers : list (string * string))
| ValueError (msg : string)
| UnknownHashError
| MalformedHashError
| PasswordValueError (msg : string)
| IntegrityError
| AttributeError.

(** [isinstance(e, JWTError)]. *)
Definition is_JWTError (e : exn) : bool :=
  match e with
  | JWTError _ | ExpiredSignatureError _ | JWTClaimsError _ => true
  | _ => false
  end.

Inductive result (A : Type) : Type :=
| Return (a : A)
| Raise (e : exn).
Arguments Return {A} a.
Arguments Raise {A} e.

Definition bind {A B : Type} (r : result A) (k : A -> result B) : result B :=
  match r with
  | Return a => k a
  | Raise e => Raise e
  end.

Notation "'let*' x ':=' r 'in' k" := (bind r (fun x => k))
  (at level 10, x name, r at level 100, k at level 200).

(** [try: body except cls: handler], for a class given by its membership
    test. *)
Definition try_except {A : Type} (body : result A) (cls : exn -> bool)
    (handler : exn -> result A) : result A :=
  match body with
  | Return a => Return a
  | Raise e => if cls e then handler e else Raise e
  end.

(* ===================================================================== *)
(** ** python-jose: [jose.jws] and [jose.jwt] *)
(* ===================================================================== *)

Module jose.

(** The claim set of an identity token: the registered claims this
    system writes ([sub], [exp], [iat], [iss], [aud]) and whatever other
    entries the caller's dictionary carried.  A field is [None] when the
    key is not in the dictionary.  The claims are typed as RFC 7519 has
    them: time claims are NumericDates in whole seconds, the others are
    strings.  Claims the system never writes ([nbf], [jti], [at_hash]) are
    not part of the model, and neither are python-jose's checks on them. *)
Record Claims : Type := mkClaims {
  sub : option string;
  exp : option Z;
  iat : option Z;
  iss : option string;
  aud : option string;
  extra : list (string * string)
}.

(** A compact serialisation that splits into header, payload and
    signature.  The signature is symbolic: [signer = Some k] says the
    signature segment is the MAC of header and payload under key [k];
    [None] says it is the MAC of them under no key (a tampered or
    truncated token). *)
Record JWS : Type := mkJWS {
  alg : string;
  signer : option string;
  payload : Claims
}.

(** A token string: either it parses as a compact JWS with a JSON object
    as payload, or it does not. *)
Inductive Token : Type :=
| Malformed (raw : string)
| Compact (j : JWS).

(** The [options] dictionary of [jwt.decode], restricted to the keys that
    act on the modelled claims. *)
Record Options : Type := mkOptions {
  verify_signature : bool;
  verify_aud : bool;
  verify_exp : bool;
  verify_iss : bool;
  leeway : Z
}.

(** [defaults] in [jwt.decode]. *)
Definition defaults : Options :=
  {| verify_signature := true; verify_aud := true; verify_exp := true;
     verify_iss := true; leeway := 0 |}.

(** Entries of an [options] argument; [defaults.update(options)] applies
    them in order. *)
Inductive option_entry : Type :=
| opt_verify_signature (b : bool)
| opt_verify_aud (b : bool)
| opt_verify_exp (b : bool)
| opt_verify_iss (b : bool)
| opt_leeway (z : Z).

Definition update1 (o : Options) (e : option_entry) : Options :=
  match e with
  | opt_verify_signature b =>
      {| verify_signature := b; verify_aud := verify_aud o;
         verify_exp := verify_exp o; verify_iss := verify_iss o;
         leeway := leeway o |}
  | opt_verify_aud b =>
      {| verify_signature := verify_signature o; verify_aud := b;
         verify_exp := verify_exp o; verify_iss := verify_iss o;
         leeway := leeway o |}
  | opt_verify_exp b =>
      {| verify_signature := verify_signature o; verify_aud := verify_aud o;
         verify_exp := b; verify_iss := verify_iss o; leeway := leeway o |}
  | opt_verify_iss b =>
      {| verify_signature := verify_signature o; verify_aud := verify_aud o;
         verify_exp := verify_exp o; verify_iss := b; leeway := leeway o |}
  | opt_leeway z =>
      {| verify_signature := verify_signature o; verify_aud := verify_aud o;
         verify_exp := verify_exp o; verify_iss := verify_iss o;
         leeway := z |}
  end.

Definition update (o : Options) (es : list option_entry) : Options :=
  fold_left update1 es o.

(** [jwt.encode(claims, key, algorithm)]. *)
Definition encode (claims : Claims) (key : string) (algorithm : string)
    : Token :=
  Compact {| alg := algorithm; signer := Some key; payload := claims |}.

(** [jws.verify(token, key, algorithms, verify)]: load the three
    segments, and when [verify] holds check that the header's algorithm
    is allowed and that the signature matches the key. *)
Definition jws_verify (token : Token) (key : string)
    (algorithms : list string) (verify : bool) : result Claims :=
  match token with
  | Malformed _ => Raise (JWSError "Not enough segments")
  | Compact j =>
      if verify then
        if negb (existsb (String.eqb (alg j)) algorithms) then
          Raise (JWSError "The specified alg value is not allowed")
        else
          match signer j with
          | Some k =>
              if String.eqb k key then Return (payload j)
              else Raise (JWSError "Signature verification failed.")
          | None => Raise (JWSError "Signature verification failed.")
          end
      else Return (payload j)
  end.

(** [_validate_exp]: expired when [exp < now - leeway]. *)
Definition validate_exp (now : Z) (claims : Claims) (lw : Z)
    : result unit :=
  match exp claims with
  | None => Return tt
  | Some e =>
      if e <? now - lw then
        Raise (ExpiredSignatureError "Signature has expired.")
      else Return tt
  end.

(** [_validate_aud]: a token that carries [aud] is accepted only when the
    caller's [audience] is that value; [audience=None] is never in it. *)
Definition validate_aud (claims : Claims) (audience : option string)
    : result unit :=
  match aud claims with
  | None => Return tt
  | Some a =>
      match audience with
      | Some a' =>
          if String.eqb a' a then Return tt
          else Raise (JWTClaimsError "Invalid audience")
      | None => Raise (JWTClaimsError "Invalid audience")
      end
  end.

(** [_validate_iss]: checked only when the caller names an issuer. *)
Definition validate_iss (claims : Claims) (issuer : option string)
    : result unit :=
  match issuer with
  | None => Return tt
  | Some i =>
      match iss claims with
      | Some i' =>
          if String.eqb i' i then Return tt
          else Raise (JWTClaimsError "Invalid issuer")
      | None => Raise (JWTClaimsError "Invalid issuer")
      end
  end.

(** [_validate_claims]: expiry, then audience, then issuer, each under
    its option.  [jwt.decode] runs it whether or not the signature was
    verified. *)
Definition validate_claims (now : Z) (claims : Claims)
    (audience issuer : option string) (options : Options) : result unit :=
  let* _ := (if verify_exp options
             then validate_exp now claims (leeway options)
             else Return tt) in
  let* _ := (if verify_aud options
             then validate_aud claims audience
             else Return tt) in
  if verify_iss options then validate_iss claims issuer else Return tt.

(** [jwt.decode(token, key, algorithms, options, audience, issuer)].  A
    [JWSError] is re-raised as [JWTError]; the claims are validated
    whether or not the signature was. *)
Definition decode (now : Z) (token : Token) (key : string)
    (algorithms : list string) (options : list option_entry)
    (audience issuer : option string) : result Claims :=
  let opts := update defaults options in
  let* claims :=
    (match jws_verify token key algorithms (verify_signature opts) with
     | Raise (JWSError m) => Raise (JWTError m)
     | r => r
     end) in
  let* _ := validate_claims now claims audience issuer opts in
  Return claims.

End jose.

Import jose.

(* ===================================================================== *)
(** ** Text helpers *)
(* ===================================================================== *)

(** [c.lower()] on one byte. *)
Definition lower_ascii (c : ascii) : ascii :=
  let n := nat_of_ascii c in
  if ((65 <=? n) && (n <=? 90))%nat then ascii_of_nat (n + 32) else c.

(** [s.lower()]. *)
Fixpoint lower (s : string) : string :=
  match s with
  | EmptyString => EmptyString
  | String c s' => String (lower_ascii c) (lower s')
  end.

(** [s.startswith(p)] together with the rest of [s] after [p]. *)
Fixpoint strip_prefix (p s : string) : option string :=
  match p with
  | EmptyString => Some s
  | String a p' =>
      match s with
      | EmptyString => None
      | String b s' => if Ascii.eqb a b then strip_prefix p' s' else None
      end
  end.

(** [s[:n]] and [s[n:]]. *)
Fixpoint take_str (n : nat) (s : string) : string :=
  match n, s with
  | S n', String c s' => String c (take_str n' s')
  | _, _ => EmptyString
  end.

Fixpoint drop_str (n : nat) (s : string) : string :=
  match n, s with
  | S n', String _ s' => drop_str n' s'
  | _, _ => s
  end.

(** [b"\x00" in s]. *)
Fixpoint contains_nul (s : string) : bool :=
  match s with
  | EmptyString => false
  | String c s' => Ascii.eqb c zero || contains_nul s'
  end.

Definition is_digit (c : ascii) : bool :=
  let n := nat_of_ascii c in ((48 <=? n) && (n <=? 57))%nat.

(* ===================================================================== *)
(** ** db.models.User and the user table *)
(* ===================================================================== *)

(** [db/models/user.py] with the [id] and timestamps of [BaseModel]. *)
Record User : Type := mkUser {
  id : Z;
  email : string;
  first_name : string;
  last_name : string;
  hashed_password : string;
  created_at : Z;
  updated_at : Z
}.

(** The [users] table: rows indexed by the unique [email] column, and the
    next value of the auto-incremented primary key. *)
Record Store : Type := mkStore {
  rows : gmap string User;
  next_id : Z
}.

(** [User.get_or_none(email=e)]. *)
Definition get_or_none (db : Store) (e : string) : option User :=
  rows db !! e.

(** [User.create(email, first_name, last_name, hashed_password)] at time
    [now]: the unique index rejects a second row with the same e-mail. *)
Definition create (db : Store) (now : Z) (e fn ln hp : string)
    : result User * Store :=
  match rows db !! e with
  | Some _ => (Raise IntegrityError, db)
  | None =>
      let u := {| id := next_id db; email := e; first_name := fn;
                  last_name := ln; hashed_password := hp;
                  created_at := now; updated_at := now |} in
      (Return u, {| rows := <[e := u]> (rows db);
                    next_id := next_id db + 1 |})
  end.

(* ===================================================================== *)
(** ** app/config/__init__.py *)
(* ===================================================================== *)

(** The fields of [Settings] read by the authentication core. *)
Record Settings : Type := mkSettings {
  SECRET_KEY : string;
  ALGORITHM : string;
  ACCESS_TOKEN_EXPIRE_MINUTES : Z
}.

(** The field defaults of the class. *)
Definition default_settings : Settings :=
  {| SECRET_KEY := "your-secret-key-change-this-in-production";
     ALGORITHM := "HS256";
     ACCESS_TOKEN_EXPIRE_MINUTES := 1440 |}.

(** The 64 characters of bcrypt's base64 alphabet. *)
Definition HASH64_CHARS : string :=
  "./ABCDEFGHIJKLMNOPQRSTUVWXYZabcdefghijklmnopqrstuvwxyz0123456789".

(** [getrandstr(rng, HASH64_CHARS, count)]; [rng i] is the [i]-th draw. *)
Fixpoint getrandstr (rng : nat -> nat) (count : nat) : string :=
  match count with
  | O => EmptyString
  | S n =>
      let c := match String.get (rng n mod 64) HASH64_CHARS with
               | Some c => c
               | None => "."%char
               end in
      String c (getrandstr rng n)
  end.

(** [c in s]. *)
Fixpoint str_mem (c : ascii) (s : string) : bool :=
  match s with
  | EmptyString => false
  | String a s' => Ascii.eqb a c || str_mem c s'
  end.

(** Every character of [s] is one of bcrypt's alphabet. *)
Fixpoint is_hash64 (s : string) : bool :=
  match s with
  | EmptyString => true
  | String c s' => str_mem c HASH64_CHARS && is_hash64 s'
  end.

Section Core.

(** The process-wide [settings] object. *)
Variable settings : Settings.

(** The bcrypt primitive: from identifier, cost, 22-character salt and
    secret to the 31-character checksum. *)
Variable bcrypt_raw : string -> nat -> string -> string -> string.

(** *** passlib: [CryptContext(schemes=["bcrypt"], bcrypt__rounds=12,
        bcrypt__ident="2b")] *)

(** [bcrypt.ident_values]. *)
Definition ident_values : list string :=
  ("$2$" :: "$2a$" :: "$2x$" :: "$2y$" :: "$2b$" :: nil)%string.

(** The first identifier that prefixes [hash], with what follows it. *)
Fixpoint match_ident (ids : list string) (hash : string)
    : option (string * string) :=
  match ids with
  | nil => None
  | i :: ids' =>
      match strip_prefix i hash with
      | Some rest => Some (i, rest)
      | None => match_ident ids' hash
      end
  end.

(** [bcrypt.identify(hash)]. *)
Definition bcrypt_identify (hash : string) : bool :=
  match match_ident ident_values hash with
  | Some _ => true
  | None => false
  end.

(** [bcrypt.from_string(hash)] and the checks of the handler's
    constructor: an identifier other than the unsupported ["$2x$"], a
    two-digit cost from 04 to 31, ["$"], 22 characters of salt out of the
    bcrypt alphabet and 31 of checksum.  The characters of the checksum are
    taken as they are, where passlib also wants them in the alphabet: what
    parses here includes all that passlib parses. *)
Definition bcrypt_from_string (hash : string)
    : option (string * nat * string * string) :=
  match match_ident ident_values hash with
  | None => None
  | Some (ident, rest) =>
      if String.eqb ident "$2x$" then None
      else
        match rest with
        | String d1 (String d2 (String sep tail)) =>
            let rounds :=
              ((nat_of_ascii d1 - 48) * 10 + (nat_of_ascii d2 - 48))%nat in
            if is_digit d1 && is_digit d2 && Ascii.eqb sep "$"%char
               && (4 <=? rounds)%nat && (rounds <=? 31)%nat
               && (String.length tail =? 53)%nat
               && is_hash64 (take_str 22 tail)
            then Some (ident, rounds, take_str 22 tail, drop_str 22 tail)
            else None
        | _ => None
        end
  end.

(** [bcrypt._calc_checksum(secret)]: passlib refuses a secret with a NUL
    byte, and the bcrypt backend one of more than 72 bytes, the input bound
    of the primitive (backends before bcrypt 5 cut the secret there
    instead; nothing below depends on what happens beyond the bound). *)
Definition calc_checksum (ident : string) (rounds : nat)
    (salt secret : string) : result string :=
  if contains_nul secret then
    Raise (PasswordValueError "bcrypt does not allow NULL bytes in password")
  else if (72 <? String.length secret)%nat then
    Raise (PasswordValueError "password cannot be longer than 72 bytes")
  else Return (bcrypt_raw ident rounds salt secret).

(** [pwd_context.hash(secret)]. *)
Definition pwd_context_hash (rng : nat -> nat) (secret : string)
    : result string :=
  let salt := getrandstr rng 22 in
  let* chk := calc_checksum "$2b$" 12 salt secret in
  Return ("$2b$" +:+ "12" +:+ "$" +:+ salt +:+ chk).

(** [pwd_context.verify(secret, hash)]: identify the scheme, parse the
    hash, recompute the checksum and compare. *)
Definition pwd_context_verify (secret hash : string) : result bool :=
  if negb (bcrypt_identify hash) then Raise UnknownHashError
  else
    match bcrypt_from_string hash with
    | None => Raise MalformedHashError
    | Some (ident, rounds, salt, chk) =>
        let* chk' := calc_checksum ident rounds salt secret in
        Return (String.eqb chk' chk)
    end.

(** *** Security functions *)

Definition verify_password (plain_password hashed_password : string)
    : result bool :=
  pwd_context_verify plain_password hashed_password.

Definition get_password_hash (rng : nat -> nat) (password : string)
    : result string :=
  pwd_context_hash rng password.

(** [create_access_token(data, expires_delta)] at time [now];
    [expires_delta] in seconds, falsy when absent or zero. *)
Definition create_access_token (now : Z) (data : Claims)
    (expires_delta : option Z) : result Token :=
  match sub data with
  | None => Raise (ValueError "Token data must contain 'sub' key")
  | Some _ =>
      let expire :=
        match expires_delta with
        | Some d =>
            if d =? 0 then now + ACCESS_TOKEN_EXPIRE_MINUTES settings * 60
            else now + d
        | None => now + ACCESS_TOKEN_EXPIRE_MINUTES settings * 60
        end in
      let to_encode :=
        {| sub := sub data;
           exp := Some expire;
           iat := Some now;
           iss := Some "event_manager_api"%string;
           aud := Some "event_manager_api_users"%string;
           extra := extra data |} in
      Return (encode to_encode (SECRET_KEY settings) (ALGORITHM settings))
  end.

Definition create_user_access_token (now : Z) (user : User)
    : result Token :=
  if String.eqb (email user) "" then
    Raise (ValueError "User must have an email address")
  else
    create_access_token now
      {| sub := Some (email user); exp := None; iat := None; iss := None;
         aud := None; extra := nil |} None.

Definition decode_token (now : Z) (token : Token) : result Claims :=
  match decode now token (SECRET_KEY settings) (ALGORITHM settings :: nil)
          nil None None with
  | Return payload => Return payload
  | Raise (ExpiredSignatureError _) => Raise (JWTError "Token has expired")
  | Raise e =>
      if is_JWTError e then Raise (JWTError "Could not validate token")
      else Raise e
  end.

Definition get_email_from_token (now : Z) (token : Token)
    : result (option string) :=
  try_except
    (let* payload :=
       decode now token (SECRET_KEY settings) (ALGORITHM settings :: nil)
         (opt_verify_signature false :: opt_verify_exp false :: nil)
         None None in
     Return (sub payload))
    is_JWTError (fun _ => Return None).

(** *** app/api/exceptions.py *)

Definition AuthException (detail : string) : exn :=
  HTTPException 401 detail (("WWW-Authenticate", "Bearer")%string :: nil).

Definition BadRequestException (detail : string) : exn :=
  HTTPException 400 detail nil.

(** *** fastapi.security.HTTPBearer *)

(** A non-empty [Authorization] header value, split at its first space
    by [get_authorization_scheme_param]. *)
Record HTTPAuthorizationCredentials : Type := mkCredentials {
  scheme : string;
  credentials : Token
}.

(** A request, as far as authentication reads it: the [Authorization]
    header, if any. *)
Record Request : Type := mkRequest {
  authorization : option HTTPAuthorizationCredentials
}.

(** Truthiness of the text after the scheme. *)
Definition has_credentials (t : Token) : bool :=
  match t with
  | Malformed EmptyString => false
  | _ => true
  end.

(** [HTTPBearer(auto_error=...).__call__(request)]. *)
Definition HTTPBearer (auto_error : bool) (request : Request)
    : result (option HTTPAuthorizationCredentials) :=
  match authorization request with
  | None =>
      if auto_error then Raise (HTTPException 403 "Not authenticated" nil)
      else Return None
  | Some c =>
      if negb (negb (String.eqb (scheme c) "")
               && has_credentials (credentials c)) then
        if auto_error then Raise (HTTPException 403 "Not authenticated" nil)
        else Return None
      else if negb (String.eqb (lower (scheme c)) "bearer") then
        if auto_error then
          Raise (HTTPException 403 "Invalid authentication credentials" nil)
        else Return None
      else Return (Some c)
  end.

(** *** app/api/dependencies.py *)

Definition security_required : Request ->
    result (option HTTPAuthorizationCredentials) := HTTPBearer true.
Definition security_optional : Request ->
    result (option HTTPAuthorizationCredentials) := HTTPBearer false.

Definition credentials_exception : exn :=
  HTTPException 401 "Could not validate credentials"
    (("WWW-Authenticate", "Bearer")%string :: nil).

Definition get_current_user (db : Store) (now : Z)
    (creds : option HTTPAuthorizationCredentials) : result User :=
  let* email :=
    try_except
      (let* token := (match creds with
                      | Some c => Return (credentials c)
                      | None => Raise AttributeError
                      end) in
       let* payload :=
         decode now token (SECRET_KEY settings)
           (ALGORITHM settings :: nil)
           (opt_verify_iss false :: opt_verify_aud false :: nil)
           None None in
       match sub payload with
       | None => Raise credentials_exception
       | Some email => Return email
       end)
      is_JWTError (fun _ => Raise credentials_exception) in
  match get_or_none db email with
  | None => Raise credentials_exception
  | Some user => Return user
  end.

Definition get_current_user_optional (db : Store) (now : Z)
    (creds : option HTTPAuthorizationCredentials)
    : result (option User) :=
  match creds with
  | None => Return None
  | Some c =>
      let* email :=
        try_except
          (let* payload :=
             decode now (credentials c) (SECRET_KEY settings)
               (ALGORITHM settings :: nil)
               (opt_verify_iss false :: opt_verify_aud false :: nil)
               None None in
           Return (sub payload))
          is_JWTError (fun _ => Return None) in
      match email with
      | None => Return None
      | Some email => Return (get_or_none db email)
      end
  end.

(** An endpoint parameter [Depends(get_current_user)]: the security
    scheme runs first, then the dependency on its result. *)
Definition requireIdentity (db : Store) (now : Z) (request : Request)
    : result User :=
  let* creds := security_required request in
  get_current_user db now creds.

Definition optionalIdentity (db : Store) (now : Z) (request : Request)
    : result (option User) :=
  let* creds := security_optional request in
  get_current_user_optional db now creds.

(** *** app/api/auth/auth.py *)

Record UserRegister : Type := mkUserRegister {
  reg_email : string;
  reg_first_name : string;
  reg_last_name : string;
  reg_password : string
}.

Record OAuth2PasswordRequestForm : Type := mkForm {
  username : string;
  password : string
}.

Record TokenResponse : Type := mkTokenResponse {
  access_token : Token;
  token_type : string;
  resp_id : Z;
  resp_email : string;
  resp_first_name : string;
  resp_last_name : string;
  resp_created_at : Z;
  resp_updated_at : Z
}.

Definition token_response (access : Token) (user : User) : TokenResponse :=
  {| access_token := access; token_type := "bearer";
     resp_id := id user; resp_email := email user;
     resp_first_name := first_name user; resp_last_name := last_name user;
     resp_created_at := created_at user;
     resp_updated_at := updated_at user |}.

(** [POST /auth/register]: the response and the table afterwards. *)
Definition register (db : Store) (now : Z) (rng : nat -> nat)
    (user_data : UserRegister) : result TokenResponse * Store :=
  match get_or_none db (reg_email user_data) with
  | Some _ =>
      (Raise (BadRequestException "User with this email already exists"),
       db)
  | None =>
      match get_password_hash rng (reg_password user_data) with
      | Raise e => (Raise e, db)
      | Return hashed =>
          match create db now (reg_email user_data)
                  (reg_first_name user_data) (reg_last_name user_data)
                  hashed with
          | (Raise e, db') => (Raise e, db')
          | (Return user, db') =>
              (let* access := create_user_access_token now user in
               Return (token_response access user), db')
          end
      end
  end.

(** [POST /auth/login]: [not user or not verify_password(...)] reads the
    stored hash only when a user was found. *)
Definition login (db : Store) (now : Z)
    (form_data : OAuth2PasswordRequestForm) : result TokenResponse :=
  match get_or_none db (username form_data) with
  | None => Raise (AuthException "Incorrect email or password")
  | Some user =>
      let* ok := verify_password (password form_data)
                   (hashed_password user) in
      if negb ok then Raise (AuthException "Incorrect email or password")
      else
        let* access := create_user_access_token now user in
        Return (token_response access user)
  end.

End Core.

(* ===================================================================== *)
(** ** app/config/__init__.py and app/api/users/users.py, continued *)
(* ===================================================================== *)

(** [str(e)] for the exceptions [jwt.decode] raises. *)
Definition exn_message (e : exn) : string :=
  match e with
  | JWSError m | JWTError m | ExpiredSignatureError m | JWTClaimsError m
  | ValueError m | PasswordValueError m => m
  | HTTPException _ d _ => d
  | _ => ""
  end.

(** [api/schemas.py]: the body of [PATCH /users/me/password]. *)
Record PasswordChange : Type := mkPasswordChange {
  old_password : string;
  new_password : string
}.

(** [user.hashed_password = h] on the instance. *)
Definition set_hashed_password (u : User) (h : string) : User :=
  {| id := id u; email := email u; first_name := first_name u;
     last_name := last_name u; hashed_password := h;
     created_at := created_at u; updated_at := updated_at u |}.

(** [user.save()] at time [now] for an instance loaded from the table:
    [updated_at] is set, and the row of the instance is overwritten.  No
    code assigns the e-mail of a loaded instance, so its row is the one
    under its e-mail; without such a row the UPDATE changes nothing. *)
Definition save (db : Store) (now : Z) (u : User) : User * Store :=
  let u' := {| id := id u; email := email u; first_name := first_name u;
               last_name := last_name u;
               hashed_password := hashed_password u;
               created_at := created_at u; updated_at := now |} in
  (u', match rows db !! email u with
       | Some _ => {| rows := <[email u := u']> (rows db);
                      next_id := next_id db |}
       | None => db
       end).

Section Accounts.

Variable settings : Settings.
Variable bcrypt_raw : string -> nat -> string -> string -> string.

(** [datetime.fromtimestamp(ts)]: the local wall-clock reading of the
    instant [ts], in seconds on the scale [datetime.utcnow()] is read on,
    or the exception the platform raises for an instant out of its
    range. *)
Variable fromtimestamp : Z -> result Z.

(** [is_token_expired(token)] with [datetime.utcnow()] reading [now_us]
    microseconds: python-jose's clock is that reading cut to seconds. *)
Definition is_token_expired (now_us : Z) (token : Token) : result bool :=
  try_except
    (let* payload :=
       decode (now_us / 1000000) token (SECRET_KEY settings)
         (ALGORITHM settings :: nil) (opt_verify_exp false :: nil)
         None None in
     match exp payload with
     | None => Return true
     | Some exp_timestamp =>
         if exp_timestamp =? 0 then Return true
         else
           let* exp_datetime := fromtimestamp exp_timestamp in
           Return (exp_datetime * 1000000 <? now_us)
     end)
    is_JWTError (fun _ => Return true).

(** [PATCH /users/me/password] for the resolved [current_user]: the
    message returned and the table afterwards. *)
Definition change_password (db : Store) (now : Z) (rng : nat -> nat)
    (password_data : PasswordChange) (current_user : User)
    : result string * Store :=
  match verify_password bcrypt_raw (old_password password_data)
          (hashed_password current_user) with
  | Raise e => (Raise e, db)
  | Return false => (Raise (BadRequestException "Incorrect old password"), db)
  | Return true =>
      match verify_password bcrypt_raw (new_password password_data)
              (hashed_password current_user) with
      | Raise e => (Raise e, db)
      | Return true =>
          (Raise (BadRequestException
                    "New password must be different from old password"), db)
      | Return false =>
          match get_password_hash bcrypt_raw rng
                  (new_password password_data) with
          | Raise e => (Raise e, db)
          | Return h =>
              let '(_, db') := save db now
                                 (set_hashed_password current_user h) in
              (Return "Password changed successfully"%string, db')
          end
      end
  end.

End Accounts.

(* ===================================================================== *)
(** ** app/services/auth.py *)
(* ===================================================================== *)

Module AuthService.
Section Service.

Variable settings : Settings.
Variable bcrypt_raw : string -> nat -> string -> string -> string.
Variable fromtimestamp : Z -> result Z.

(** [models/auth.py]: [TokenPayload]. *)
Record TokenPayload : Type := mkTokenPayload {
  tp_sub : string;
  tp_exp : Z;
  tp_iat : Z;
  tp_iss : option string;
  tp_aud : option string
}.

(** The service's own [CryptContext(schemes=["bcrypt"])] has the defaults
    of the scheme, which are the cost and identifier the configuration
    module spells out. *)
Definition verify_password (plain_password hashed_password : string)
    : result bool :=
  pwd_context_verify bcrypt_raw plain_password hashed_password.

Definition get_password_hash (rng : nat -> nat) (password : string)
    : result string :=
  pwd_context_hash bcrypt_raw rng password.

(** [create_access_token]: no check for [sub]; [settings] has neither
    [PROJECT_NAME] nor [API_V1_STR], so [getattr] gives the fallbacks. *)
Definition create_access_token (now : Z) (data : Claims)
    (expires_delta : option Z) : Token :=
  let expire :=
    match expires_delta with
    | Some d =>
        if d =? 0 then now + ACCESS_TOKEN_EXPIRE_MINUTES settings * 60
        else now + d
    | None => now + ACCESS_TOKEN_EXPIRE_MINUTES settings * 60
    end in
  encode
    {| sub := sub data; exp := Some expire; iat := Some now;
       iss := Some "event_app"%string; aud := Some "/api"%string;
       extra := extra data |}
    (SECRET_KEY settings) (ALGORITHM settings).

Definition create_user_access_token (now : Z) (user : User) : Token :=
  create_access_token now
    {| sub := Some (email user); exp := None; iat := None; iss := None;
       aud := None; extra := nil |} None.

Definition authenticate_user (db : Store) (email password : string)
    : result (option User) :=
  match get_or_none db email with
  | None => Return None
  | Some user =>
      let* ok := verify_password password (hashed_password user) in
      if negb ok then Return None else Return (Some user)
  end.

Definition register_user (db : Store) (now : Z) (rng : nat -> nat)
    (user_data : UserRegister) : result User * Store :=
  match get_or_none db (reg_email user_data) with
  | Some _ =>
      (Raise (BadRequestException "User with this email already exists"),
       db)
  | None =>
      match get_password_hash rng (reg_password user_data) with
      | Raise e => (Raise e, db)
      | Return hashed =>
          create db now (reg_email user_data) (reg_first_name user_data)
            (reg_last_name user_data) hashed
      end
  end.

Definition change_password (db : Store) (now : Z) (rng : nat -> nat)
    (user : User) (old_password new_password : string)
    : result unit * Store :=
  match verify_password old_password (hashed_password user) with
  | Raise e => (Raise e, db)
  | Return false => (Raise (BadRequestException "Incorrect old password"), db)
  | Return true =>
      match verify_password new_password (hashed_password user) with
      | Raise e => (Raise e, db)
      | Return true =>
          (Raise (BadRequestException
                    "New password must be different from old password"), db)
      | Return false =>
          match get_password_hash rng new_password with
          | Raise e => (Raise e, db)
          | Return h =>
              let '(_, db') := save db now (set_hashed_password user h) in
              (Return tt, db')
          end
      end
  end.

(** [datetime.fromtimestamp(x) if x else None]. *)
Definition fromtimestamp_if (x : option Z) : result (option Z) :=
  match x with
  | None => Return None
  | Some t =>
      if t =? 0 then Return None
      else let* l := fromtimestamp t in Return (Some l)
  end.

(** [decode_token]: [TokenPayload] requires [exp] and [iat], so the
    constructor refuses [None] with pydantic's [ValidationError], a
    [ValueError]. *)
Definition decode_token (now : Z) (token : Token) : result TokenPayload :=
  try_except
    (let* payload :=
       decode now token (SECRET_KEY settings) (ALGORITHM settings :: nil)
         nil None None in
     match sub payload with
     | None => Raise (AuthException "Invalid token")
     | Some email =>
         let* e := fromtimestamp_if (exp payload) in
         let* i := fromtimestamp_if (iat payload) in
         match e, i with
         | Some e, Some i =>
             Return {| tp_sub := email; tp_exp := e; tp_iat := i;
                       tp_iss := iss payload; tp_aud := aud payload |}
         | _, _ => Raise (ValueError "validation error for TokenPayload")
         end
     end)
    is_JWTError
    (fun e => Raise (AuthException
                       ("Could not validate credentials: "
                        +:+ exn_message e))).

End Service.
End AuthService.

(* ===================================================================== *)
(** ** app/db/models/event.py and app/api/events/events.py *)
(* ===================================================================== *)

Definition NotFoundException (detail : string) : exn :=
  HTTPException 404 detail nil.

Definition ForbiddenException (detail : string) : exn :=
  HTTPException 403 detail nil.

(** A row of [events] with its three many-to-many relations, each the set
    of the identifiers on the other side of its link table. *)
Record Event : Type := mkEvent {
  ev_id : Z;
  title : string;
  short_description : string;
  full_description : string;
  date : Z;
  time : Z;
  location_id : Z;
  organizer_id : Z;
  likes_count : Z;
  participants_count : Z;
  categories : gset Z;
  liked_by : gset Z;
  participants : gset Z;
  ev_created_at : Z;
  ev_updated_at : Z
}.

(** The instance after its likes were changed and it was saved at [now]. *)
Definition with_likes (e : Event) (users : gset Z) (count now : Z) : Event :=
  {| ev_id := ev_id e; title := title e;
     short_description := short_description e;
     full_description := full_description e; date := date e;
     time := time e; location_id := location_id e;
     organizer_id := organizer_id e; likes_count := count;
     participants_count := participants_count e;
     categories := categories e; liked_by := users;
     participants := participants e; ev_created_at := ev_created_at e;
     ev_updated_at := now |}.

(** The instance after its registrations were changed and it was saved. *)
Definition with_participants (e : Event) (users : gset Z) (count now : Z)
    : Event :=
  {| ev_id := ev_id e; title := title e;
     short_description := short_description e;
     full_description := full_description e; date := date e;
     time := time e; location_id := location_id e;
     organizer_id := organizer_id e; likes_count := likes_count e;
     participants_count := count;
     categories := categories e; liked_by := liked_by e;
     participants := users; ev_created_at := ev_created_at e;
     ev_updated_at := now |}.

(** [GET /events/{event_id}]. *)
Definition get_event (events : gmap Z Event) (event_id : Z) : result Event :=
  match events !! event_id with
  | None => Raise (NotFoundException "Event not found")
  | Some event => Return event
  end.

(** [POST /events/{event_id}/like]: the event returned and the table
    afterwards. *)
Definition toggle_like (events : gmap Z Event) (now : Z) (event_id : Z)
    (current_user : User) : result Event * gmap Z Event :=
  match events !! event_id with
  | None => (Raise (NotFoundException "Event not found"), events)
  | Some event =>
      let event' :=
        if bool_decide (id current_user ∈ liked_by event) then
          with_likes event (liked_by event ∖ {[id current_user]})
            (Z.max 0 (likes_count event - 1)) now
        else
          with_likes event (liked_by event ∪ {[id current_user]})
            (likes_count event + 1) now in
      (Return event', <[event_id := event']> events)
  end.

(** [POST /events/{event_id}/register]. *)
Definition register_for_event (events : gmap Z Event) (now : Z)
    (event_id : Z) (current_user : User) : result Event * gmap Z Event :=
  match events !! event_id with
  | None => (Raise (NotFoundException "Event not found"), events)
  | Some event =>
      if bool_decide (id current_user ∈ participants event) then
        (Raise (BadRequestException "Already registered for this event"),
         events)
      else
        let event' :=
          with_participants event (participants event ∪ {[id current_user]})
            (participants_count event + 1) now in
        (Return event', <[event_id := event']> events)
  end.

(** [DELETE /events/{event_id}/register]. *)
Definition unregister_from_event (events : gmap Z Event) (now : Z)
    (event_id : Z) (current_user : User) : result string * gmap Z Event :=
  match events !! event_id with
  | None => (Raise (NotFoundException "Event not found"), events)
  | Some event =>
      if negb (bool_decide (id current_user ∈ participants event)) then
        (Raise (BadRequestException "Not registered for this event"), events)
      else
        let event' :=
          with_participants event (participants event ∖ {[id current_user]})
            (Z.max 0 (participants_count event - 1)) now in
        (Return "Successfully unregistered from event"%string,
         <[event_id := event']> events)
  end.

(** [DELETE /events/{event_id}]. *)
Definition delete_event (events : gmap Z Event) (event_id : Z)
    (current_user : User) : result string * gmap Z Event :=
  match events !! event_id with
  | None => (Raise (NotFoundException "Event not found"), events)
  | Some event =>
      if negb (organizer_id event =? id current_user) then
        (Raise (ForbiddenException "You can only delete your own events"),
         events)
      else
        (Return "Event deleted successfully"%string, delete event_id events)
  end.

(** The counters of an event agree with its relations. *)
Definition counts_agree (e : Event) : Prop :=
  likes_count e = Z.of_nat (size (liked_by e))
  /\ participants_count e = Z.of_nat (size (participants e)).

(** The page arithmetic shared by the four "with-status" listings:
    [offset = (page - 1) * size], [query.offset(offset).limit(size)] and
    [pages = (total + size - 1) // size], over the rows of the query in the
    order the database returns them. *)
Definition page_items {A : Type} (query : list A) (page size : Z) : list A :=
  take (Z.to_nat size) (drop (Z.to_nat ((page - 1) * size)) query).

Definition page_count (total size : Z) : Z := (total + size - 1) / size.

(** [api/schemas.py]: [EventWithUserStatus] and
    [PaginatedEventsWithStatus]. *)
Record EventWithUserStatus : Type := mkEventWithUserStatus {
  base_event : Event;
  is_liked : bool;
  is_registered : bool
}.

Record PaginatedEventsWithStatus : Type := mkPaginated {
  pg_items : list EventWithUserStatus;
  pg_total : Z;
  pg_page : Z;
  pg_size : Z;
  pg_pages : Z
}.

Section Listing.

(** [ORDER BY created_at DESC] as the database performs it; the order
    among rows of equal [created_at] is the database's. *)
Variable order_by_created_at_desc : list Event -> list Event.

(** The rows of [Event.filter(organizer=current_user)
    .order_by("-created_at")]. *)
Definition created_events_query (events : gmap Z Event) (current_user : User)
    : list Event :=
  order_by_created_at_desc
    (List.filter (fun e => organizer_id e =? id current_user)
       (map_to_list events).*2).

(** [GET /events/me/created/with-status]; [query.count()] counts the
    rows of the filter. *)
Definition get_my_created_events_with_status (events : gmap Z Event)
    (page size : Z) (current_user : User) : PaginatedEventsWithStatus :=
  let query := created_events_query events current_user in
  let total :=
    Z.of_nat (length (List.filter
                        (fun e => organizer_id e =? id current_user)
                        (map_to_list events).*2)) in
  let events_with_status :=
    List.map
      (fun event =>
         {| base_event := event;
            is_liked := bool_decide (id current_user ∈ liked_by event);
            is_registered :=
              bool_decide (id current_user ∈ participants event) |})
      (page_items query page size) in
  {| pg_items := events_with_status; pg_total := total; pg_page := page;
     pg_size := size; pg_pages := page_count total size |}.

End Listing.

(* ===================================================================== *)
(** ** Vocabulary of the statements *)
(* ===================================================================== *)

(** [t] splits into three segments, names the algorithm [algo] and its
    signature is the one [key] produces. *)
Definition valid_signature (key algo : string) (t : Token) : bool :=
  match t with
  | Malformed _ => false
  | Compact j =>
      String.eqb (alg j) algo
      && match signer j with
         | Some k => String.eqb k key
         | None => false
         end
  end.

(** The claims carry an expiry instant and [now] is strictly later. *)
Definition expired_at (now : Z) (c : Claims) : bool :=
  match exp c with
  | Some e => e <? now
  | None => false
  end.

(** Every row of the user table is filed under its own e-mail, primary
    keys are below the next one to be given out, and no two rows share
    one. *)
Definition store_ok (db : Store) : Prop :=
  (forall k u, rows db !! k = Some u -> email u = k /\ id u < next_id db)
  /\ (forall k1 k2 u1 u2, rows db !! k1 = Some u1 -> rows db !! k2 = Some u2 ->
        id u1 = id u2 -> k1 = k2).

(** The claim names python-jose gives a meaning of its own.  The first
    five are the fields of [Claims]; a claim set that carried one of the
    others, or a second entry under a field's name, would be validated in
    ways [jose.validate_claims] leaves out. *)
Definition registered_claims : list string :=
  ("sub" :: "exp" :: "iat" :: "iss" :: "aud" :: "nbf" :: "jti"
   :: "at_hash" :: nil)%string.

(** The further entries of a claim set are private: none bears a
    registered name. *)
Definition private_extra (claims : Claims) : bool :=
  forallb (fun kv => negb (existsb (String.eqb (fst kv)) registered_claims))
    (extra claims).

(** [timegm(datetime.utcnow().utctimetuple())]: the clock python-jose
    compares [exp] with is the wall clock, here in microseconds, cut to
    whole seconds. *)
Definition utc_seconds (now_us : Z) : Z := now_us / 1000000.


(** The options the two dependencies pass to [jwt.decode]; in
    [get_current_user_optional] the line carries the comment "add this
    line".  The other decode calls of the system, in
    [app/config/__init__.py], do not pass them. *)
Definition dependency_options : list option_entry :=
  opt_verify_iss false :: opt_verify_aud false :: nil.

(* ===================================================================== *)
(** ** A concrete instance, for evaluation *)
(* ===================================================================== *)

(** A stand-in for the bcrypt primitive with the right output length: the
    first 31 characters of secret, salt and padding. *)
Definition toy_bcrypt (ident : string) (rounds : nat) (salt secret : string)
    : string :=
  take_str 31 (secret +:+ salt +:+ "...............................").

Definition empty_store : Store := {| rows := ∅; next_id := 1 |}.

Definition alice : User :=
  {| id := 1; email := "a@x.com"; first_name := "A"; last_name := "X";
     hashed_password :=
       "$2b$12$......................Secret123......................";
     created_at := 0; updated_at := 0 |}.

Definition store_alice : Store :=
  {| rows := {[ "a@x.com"%string := alice ]}; next_id := 2 |}.

Definition bearer (t : Token) : Request :=
  {| authorization := Some {| scheme := "Bearer"; credentials := t |} |}.

Definition claims_of (s : string) (i e : Z) : Claims :=
  {| sub := Some s; exp := Some e; iat := Some i;
     iss := Some "event_manager_api"%string;
     aud := Some "event_manager_api_users"%string; extra := nil |}.

(** A validly signed token that names no audience. *)
Definition token_no_aud : JWS :=
  {| alg := "HS256";
     signer := Some "your-secret-key-change-this-in-production"%string;
     payload := {| sub := Some "a@x.com"%string; exp := Some 87400;
                   iat := Some 1000; iss := None; aud := None;
                   extra := nil |} |}.

(** A clock whose local time is UTC. *)
Definition utc_fromtimestamp (ts : Z) : result Z := Return ts.

Definition only_sub (s : string) : Claims :=
  {| sub := Some s; exp := None; iat := None; iss := None; aud := None;
     extra := nil |}.

Definition bob_registration : UserRegister :=
  {| reg_email := "b@x.com"; reg_first_name := "B"; reg_last_name := "Y";
     reg_password := "Other1234" |}.

(** An event organised by user 1, liked and joined by nobody. *)
Definition concert : Event :=
  {| ev_id := 7; title := "Concert"; short_description := "short";
     full_description := "full"; date := 20000; time := 68400;
     location_id := 1; organizer_id := 1; likes_count := 0;
     participants_count := 0; categories := {[ 3 ]}; liked_by := ∅;
     participants := ∅; ev_created_at := 10; ev_updated_at := 10 |}.

Definition one_event : gmap Z Event := {[ 7 := concert ]}.

(** A second event of the same organizer, and one of another user. *)
Definition recital : Event :=
  {| ev_id := 8; title := "Recital"; short_description := "short";
     full_description := "full"; date := 20001; time := 68400;
     location_id := 1; organizer_id := 1; likes_count := 0;
     participants_count := 0; categories := {[ 3 ]}; liked_by := ∅;
     participants := ∅; ev_created_at := 11; ev_updated_at := 11 |}.

Definition lecture : Event :=
  {| ev_id := 9; title := "Lecture"; short_description := "short";
     full_description := "full"; date := 20002; time := 36000;
     location_id := 1; organizer_id := 2; likes_count := 0;
     participants_count := 0; categories := {[ 3 ]}; liked_by := ∅;
     participants := ∅; ev_created_at := 12; ev_updated_at := 12 |}.

Definition two_events : gmap Z Event :=
  {[ 7 := concert; 8 := recital; 9 := lecture ]}.

(** The token registration hands to "a@x.com" at second 1000. *)
Definition token_alice : JWS :=
  {| alg := "HS256";
     signer := Some "your-secret-key-change-this-in-production"%string;
     payload := claims_of "a@x.com" 1000 87400 |}.

(* ===================================================================== *)
(** ** Password hasher *)
(* ===================================================================== *)

Section Hasher.

Variable bcrypt_raw : string -> nat -> string -> string -> string.

Lemma length_app_str (a b : string) :
  String.length (a +:+ b) = (String.length a + String.length b)%nat.
Proof. induction a as [|c a IH]; simpl; [reflexivity | now rewrite IH]. Qed.

Lemma take_str_app (n : nat) (a b : string) :
  String.length a = n -> take_str n (a +:+ b) = a.
Proof.
  intros <-. induction a as [|c a IH]; simpl;
    [now destruct b | now rewrite IH].
Qed.

Lemma drop_str_app (n : nat) (a b : string) :
  String.length a = n -> drop_str n (a +:+ b) = b.
Proof.
  intros <-. induction a as [|c a IH]; simpl; [now destruct b | exact IH].
Qed.

Lemma length_take_str (n : nat) (s : string) :
  (n <= String.length s)%nat -> String.length (take_str n s) = n.
Proof.
  revert s; induction n as [|n IH]; intros [|c s] H; simpl in *;
    try reflexivity; try lia.
  rewrite IH; [reflexivity | lia].
Qed.

Lemma getrandstr_length (rng : nat -> nat) (count : nat) :
  String.length (getrandstr rng count) = count.
Proof. induction count as [|n IH]; simpl; [reflexivity | now rewrite IH]. Qed.

Lemma str_mem_get (k : nat) (s : string) (c : ascii) :
  String.get k s = Some c -> str_mem c s = true.
Proof.
  revert k. induction s as [|a s IH]; intros [|k] H; simpl in *;
    try discriminate.
  - injection H as ->. now rewrite Ascii.eqb_refl.
  - rewrite (IH _ H). apply orb_true_r.
Qed.

(** A salt that was drawn consists of characters of the alphabet. *)
Lemma getrandstr_hash64 (rng : nat -> nat) (count : nat) :
  is_hash64 (getrandstr rng count) = true.
Proof.
  induction count as [|n IH]; [reflexivity |].
  cbn [getrandstr is_hash64]. rewrite IH, andb_true_r.
  destruct (String.get (rng n mod 64) HASH64_CHARS) as [c|] eqn:Hg;
    [exact (str_mem_get _ _ _ Hg) | reflexivity].
Qed.

(** What [pwd_context.hash] renders is what [from_string] reads back. *)
Lemma bcrypt_from_string_render (salt chk : string) :
  String.length salt = 22%nat -> is_hash64 salt = true ->
  String.length chk = 31%nat ->
  bcrypt_from_string ("$2b$" +:+ "12" +:+ "$" +:+ salt +:+ chk)
  = Some ("$2b$"%string, 12%nat, salt, chk).
Proof.
  intros Hs H64 Hc.
  replace ("$2b$" +:+ "12" +:+ "$" +:+ salt +:+ chk)
    with (String "$" (String "2" (String "b" (String "$" (String "1"
           (String "2" (String "$" (salt +:+ chk)))))))) by reflexivity.
  unfold bcrypt_from_string.
  cbn -[take_str drop_str is_digit Nat.eqb Nat.leb is_hash64].
  rewrite length_app_str, Hs, Hc, (take_str_app _ _ _ Hs), H64,
    (drop_str_app _ _ _ Hs).
  reflexivity.
Qed.

Lemma bcrypt_identify_from_string (hash : string) :
  bcrypt_identify hash = false -> bcrypt_from_string hash = None.
Proof.
  unfold bcrypt_identify, bcrypt_from_string.
  destruct (match_ident ident_values hash); [discriminate | reflexivity].
Qed.

Lemma calc_checksum_ok (ident : string) (rounds : nat) (salt s : string) :
  contains_nul s = false -> (String.length s <= 72)%nat ->
  calc_checksum bcrypt_raw ident rounds salt s
  = Return (bcrypt_raw ident rounds salt s).
Proof.
  intros Hn Hl. unfold calc_checksum. rewrite Hn.
  destruct (Nat.ltb_spec 72 (String.length s)); [lia | reflexivity].
Qed.

(** The hash [pwd_context.hash] returns for an admissible secret, and its
    verification. *)
Lemma get_password_hash_verifies (rng : nat -> nat) (s : string) :
  contains_nul s = false -> (String.length s <= 72)%nat ->
  String.length (bcrypt_raw "$2b$" 12 (getrandstr rng 22) s) = 31%nat ->
  exists h, get_password_hash bcrypt_raw rng s = Return h
            /\ verify_password bcrypt_raw s h = Return true
            /\ h = ("$2b$" +:+ "12" +:+ "$" +:+ getrandstr rng 22
                   +:+ bcrypt_raw "$2b$" 12 (getrandstr rng 22) s)%string.
Proof.
  intros Hn Hl Hlen.
  unfold get_password_hash, pwd_context_hash, verify_password,
    pwd_context_verify.
  rewrite (calc_checksum_ok _ _ _ _ Hn Hl). cbn [bind].
  eexists; split; [reflexivity |]. split; [| reflexivity].
  pose proof (bcrypt_from_string_render (getrandstr rng 22)
                (bcrypt_raw "$2b$" 12 (getrandstr rng 22) s)
                (getrandstr_length rng 22) (getrandstr_hash64 rng 22)
                Hlen) as Hp.
  unfold bcrypt_identify. unfold bcrypt_from_string in Hp |- *.
  destruct (match_ident ident_values _) as [[i r]|]; [| discriminate Hp].
  cbn [negb]. rewrite Hp.
  rewrite (calc_checksum_ok _ _ _ _ Hn Hl). cbn [bind].
  now rewrite String.eqb_refl.
Qed.

(** C6, amended.  For every secret without a NUL byte and of at most 72
    bytes, whatever salt is drawn, [get_password_hash] returns a hash, and
    [verify_password] of the secret against that hash returns [True].
    The bcrypt primitive is assumed to answer the call with a checksum of
    its 31 characters. *)
Theorem verify_password_get_password_hash (rng : nat -> nat) (s : string) :
  contains_nul s = false -> (String.length s <= 72)%nat ->
  String.length (bcrypt_raw "$2b$" 12 (getrandstr rng 22) s) = 31%nat ->
  exists h, get_password_hash bcrypt_raw rng s = Return h
            /\ verify_password bcrypt_raw s h = Return true.
Proof.
  intros Hn Hl Hlen.
  unfold get_password_hash, pwd_context_hash, verify_password,
    pwd_context_verify.
  rewrite (calc_checksum_ok _ _ _ _ Hn Hl). cbn [bind].
  eexists; split; [reflexivity |].
  pose proof (bcrypt_from_string_render (getrandstr rng 22)
                (bcrypt_raw "$2b$" 12 (getrandstr rng 22) s)
                (getrandstr_length rng 22) (getrandstr_hash64 rng 22)
                Hlen) as Hp.
  unfold bcrypt_identify. unfold bcrypt_from_string in Hp |- *.
  destruct (match_ident ident_values _) as [[i r]|]; [| discriminate Hp].
  cbn [negb]. rewrite Hp.
  rewrite (calc_checksum_ok _ _ _ _ Hn Hl). cbn [bind].
  now rewrite String.eqb_refl.
Qed.

(** C7, amended.  The shape [bcrypt_from_string] reads is: one of the
    identifiers [$2$], [$2a$], [$2y$], [$2b$], a cost of two digits from
    04 to 31, a [$], 22 salt characters of the bcrypt alphabet and 31
    further characters.  Against a stored string that lacks this shape,
    [verify_password] returns nothing: the hasher's error reaches the
    caller, [UnknownHashError] when the string starts with no bcrypt
    identifier and the malformed-hash error otherwise.  Whenever
    [verify_password] does return, the stored string has this shape, and
    what is returned says whether the checksum recomputed from the secret
    is the stored one. *)
Theorem verify_password_malformed_hash_raises (s h : string) :
  (bcrypt_from_string h = None ->
   (bcrypt_identify h = false
    /\ verify_password bcrypt_raw s h = Raise UnknownHashError)
   \/ (bcrypt_identify h = true
       /\ verify_password bcrypt_raw s h = Raise MalformedHashError))
  /\ (forall b,
        verify_password bcrypt_raw s h = Return b ->
        exists ident rounds salt chk,
          bcrypt_from_string h = Some (ident, rounds, salt, chk)
          /\ b = String.eqb (bcrypt_raw ident rounds salt s) chk).
Proof.
  unfold verify_password, pwd_context_verify. split.
  - intros Hp. rewrite Hp.
    destruct (bcrypt_identify h); [right | left]; split; reflexivity.
  - intros b. destruct (negb (bcrypt_identify h)); [discriminate |].
    destruct (bcrypt_from_string h) as [[[[ident rounds] salt] chk]|];
      [| discriminate].
    unfold calc_checksum.
    destruct (contains_nul s); [discriminate |].
    destruct (72 <? String.length s)%nat; [discriminate |].
    cbn [bind]. intros [= <-]. now exists ident, rounds, salt, chk.
Qed.

End Hasher.

(* ===================================================================== *)
(** ** Token codec *)
(* ===================================================================== *)

Section Codec.

Variable settings : Settings.

Let key := SECRET_KEY settings.
Let algo := ALGORITHM settings.

Lemma existsb_singleton (a b : string) :
  existsb (String.eqb a) (b :: nil) = String.eqb a b.
Proof. simpl. now rewrite orb_false_r. Qed.

(** [jws.verify] with verification on succeeds exactly on a validly
    signed token, and then yields its payload. *)
Lemma jws_verify_valid (j : JWS) :
  valid_signature key algo (Compact j) = true ->
  jws_verify (Compact j) key (algo :: nil) true = Return (payload j).
Proof.
  unfold valid_signature, jws_verify. rewrite existsb_singleton.
  destruct (String.eqb (alg j) algo); [| discriminate]. simpl.
  destruct (signer j) as [k|]; [| discriminate].
  now destruct (String.eqb k key).
Qed.

Lemma jws_verify_invalid (t : Token) :
  valid_signature key algo t = false ->
  exists m, jws_verify t key (algo :: nil) true = Raise (JWSError m).
Proof.
  unfold valid_signature, jws_verify. destruct t as [raw|j]; [eauto |].
  rewrite existsb_singleton.
  destruct (String.eqb (alg j) algo); simpl; [| eauto].
  destruct (signer j) as [k|]; [| eauto].
  destruct (String.eqb k key); [discriminate | eauto].
Qed.

(** Every exception that leaves [jwt.decode] is a [JWTError]. *)
Lemma decode_raises_JWTError now t k algs opts audience issuer e :
  decode now t k algs opts audience issuer = Raise e ->
  is_JWTError e = true.
Proof.
  unfold decode, validate_claims, validate_exp, validate_aud, validate_iss.
  destruct (jws_verify t k algs _) as [c|[]] eqn:Hv; cbn [bind];
    try (intros [= <-]; reflexivity);
    try (unfold jws_verify in Hv;
         repeat match type of Hv with
                | context [match ?x with _ => _ end] => destruct x
                end; discriminate).
  repeat match goal with
         | |- context [match ?x with _ => _ end] => destruct x; cbn [bind]
         end; intros [= <-]; reflexivity.
Qed.

(** [jwt.decode] under the dependencies' options: signature and expiry
    are checked, audience and issuer are not. *)
Lemma decode_dependency_valid now (j : JWS) :
  valid_signature key algo (Compact j) = true ->
  decode now (Compact j) key (algo :: nil) dependency_options None None
  = if expired_at now (payload j)
    then Raise (ExpiredSignatureError "Signature has expired.")
    else Return (payload j).
Proof.
  intros Hv. unfold decode. cbn [dependency_options update fold_left
    update1 defaults verify_signature verify_exp verify_aud verify_iss
    leeway].
  rewrite (jws_verify_valid j Hv). cbn [bind].
  unfold validate_claims, validate_exp, expired_at. cbn.
  rewrite Z.sub_0_r. destruct (exp (payload j)) as [e|]; [| reflexivity].
  now destruct (e <? now).
Qed.

Lemma decode_dependency_invalid now (t : Token) :
  valid_signature key algo t = false ->
  exists m, decode now t key (algo :: nil) dependency_options None None
            = Raise (JWTError m).
Proof.
  intros Hv. destruct (jws_verify_invalid t Hv) as [m Hm].
  exists m. unfold decode. cbn [dependency_options update fold_left
    update1 defaults verify_signature]. now rewrite Hm.
Qed.

(** [jwt.decode] as [decode_token] calls it: default options, no
    audience. *)
Lemma decode_default_valid now (j : JWS) :
  valid_signature key algo (Compact j) = true ->
  decode now (Compact j) key (algo :: nil) nil None None
  = if expired_at now (payload j)
    then Raise (ExpiredSignatureError "Signature has expired.")
    else match aud (payload j) with
         | Some _ => Raise (JWTClaimsError "Invalid audience")
         | None => Return (payload j)
         end.
Proof.
  intros Hv. unfold decode. cbn [update fold_left defaults
    verify_signature verify_exp verify_aud verify_iss leeway].
  rewrite (jws_verify_valid j Hv). cbn [bind].
  unfold validate_claims, validate_exp, validate_aud, validate_iss,
    expired_at. cbn.
  rewrite Z.sub_0_r. destruct (exp (payload j)) as [e|].
  - destruct (e <? now); [reflexivity |]. cbn.
    now destruct (aud (payload j)).
  - cbn. now destruct (aud (payload j)).
Qed.

Lemma decode_token_invalid now (t : Token) :
  valid_signature key algo t = false ->
  decode_token settings now t = Raise (JWTError "Could not validate token").
Proof.
  intros Hv. destruct (jws_verify_invalid t Hv) as [m Hm].
  unfold decode_token, decode. cbn [update fold_left defaults
    verify_signature]. fold key algo. now rewrite Hm.
Qed.

Lemma decode_token_valid now (j : JWS) :
  valid_signature key algo (Compact j) = true ->
  decode_token settings now (Compact j)
  = if expired_at now (payload j)
    then Raise (JWTError "Token has expired")
    else match aud (payload j) with
         | Some _ => Raise (JWTError "Could not validate token")
         | None => Return (payload j)
         end.
Proof.
  intros Hv. unfold decode_token. fold key algo.
  rewrite (decode_default_valid now j Hv).
  destruct (expired_at now (payload j)); [reflexivity |].
  now destruct (aud (payload j)).
Qed.

End Codec.

Section CodecClaims.

Variable settings : Settings.

(** The claim set [create_access_token] signs. *)
Lemma create_access_token_inv now data delta t :
  create_access_token settings now data delta = Return t ->
  exists e, t = encode
                  {| sub := sub data; exp := Some e; iat := Some now;
                     iss := Some "event_manager_api"%string;
                     aud := Some "event_manager_api_users"%string;
                     extra := extra data |}
                  (SECRET_KEY settings) (ALGORITHM settings)
            /\ is_Some (sub data)
            /\ (delta = None \/ delta = Some 0 ->
                e = now + ACCESS_TOKEN_EXPIRE_MINUTES settings * 60)
            /\ (forall d, delta = Some d -> d <> 0 -> e = now + d).
Proof.
  unfold create_access_token. destruct (sub data) as [s|] eqn:Hs;
    [| discriminate].
  intros [= <-]. eexists; split; [reflexivity |]. split; [eauto |].
  split.
  - intros [-> | ->]; reflexivity.
  - intros d -> Hd. destruct (Z.eqb_spec d 0); [contradiction | reflexivity].
Qed.

Lemma encode_valid_signature (c : Claims) :
  valid_signature (SECRET_KEY settings) (ALGORITHM settings)
    (encode c (SECRET_KEY settings) (ALGORITHM settings)) = true.
Proof. unfold valid_signature, encode. cbn. now rewrite !String.eqb_refl. Qed.


(** C3 (the code departs from it).  A validly signed, unexpired token that
    embeds an audience is accepted with its claims by the decode call of
    [get_current_user], whatever its [iss] and [aud] are, and is rejected
    by [decode_token]. *)
Theorem decode_token_enforces_audience now (j : JWS) (a : string) :
  valid_signature (SECRET_KEY settings) (ALGORITHM settings) (Compact j)
    = true ->
  expired_at now (payload j) = false ->
  aud (payload j) = Some a ->
  decode now (Compact j) (SECRET_KEY settings) (ALGORITHM settings :: nil)
    dependency_options None None = Return (payload j)
  /\ decode_token settings now (Compact j)
     = Raise (JWTError "Could not validate token").
Proof.
  intros Hv He Ha. split.
  - rewrite decode_dependency_valid by exact Hv. now rewrite He.
  - rewrite decode_token_valid by exact Hv. now rewrite He, Ha.
Qed.

(** On the clock in whole seconds: for a validly signed token with expiry
    [e], [decode_token] raises the error "Token has expired" exactly when
    the clock reads strictly more than [e]; a token that is malformed or
    not validly signed gets the different error "Could not validate
    token". *)
Theorem decode_token_expired now (j : JWS) (e : Z) :
  valid_signature (SECRET_KEY settings) (ALGORITHM settings) (Compact j)
    = true ->
  exp (payload j) = Some e ->
  (e < now ->
   decode_token settings now (Compact j)
   = Raise (JWTError "Token has expired"))
  /\ (decode_token settings now (Compact j)
      = Raise (JWTError "Token has expired") -> e < now)
  /\ (forall t,
        valid_signature (SECRET_KEY settings) (ALGORITHM settings) t
          = false ->
        decode_token settings now t
        = Raise (JWTError "Could not validate token")
        /\ decode_token settings now t
           <> Raise (JWTError "Token has expired")).
Proof.
  intros Hv He.
  rewrite (decode_token_valid settings now j Hv).
  unfold expired_at. rewrite He.
  repeat split.
  - intros Hlt. destruct (Z.ltb_spec e now); [reflexivity | lia].
  - destruct (Z.ltb_spec e now); [trivial |].
    destruct (aud (payload j)); discriminate.
  - now apply decode_token_invalid.
  - rewrite decode_token_invalid by assumption. discriminate.
Qed.

(** A reading of the clock is past second [e] exactly from the instant
    second [e + 1] begins. *)
Lemma utc_seconds_gt (now_us e : Z) :
  e < utc_seconds now_us <-> (e + 1) * 1000000 <= now_us.
Proof.
  unfold utc_seconds.
  pose proof (Z.div_mod now_us 1000000 ltac:(lia)) as Hdm.
  pose proof (Z.mod_pos_bound now_us 1000000 ltac:(lia)) as Hb.
  split; intros H; nia.
Qed.

(** C4, amended.  For a validly signed token with expiry claim [e] and
    no registered claim beyond [sub], [exp], [iat], [iss] and [aud],
    [decode_token] raises the error "Token has expired", which is not the
    error "Could not validate token" of a malformed or badly signed token,
    exactly at the wall-clock instants from the beginning of second
    [e + 1] on: no leeway is applied, and the clock is read in whole
    seconds, so during the second that begins at the expiry instant the
    token is not yet expired. *)
Theorem decode_token_expired_at_instant now_us (j : JWS) (e : Z) :
  valid_signature (SECRET_KEY settings) (ALGORITHM settings) (Compact j)
    = true ->
  private_extra (payload j) = true ->
  exp (payload j) = Some e ->
  (decode_token settings (utc_seconds now_us) (Compact j)
   = Raise (JWTError "Token has expired")
   <-> (e + 1) * 1000000 <= now_us)
  /\ (forall t,
        valid_signature (SECRET_KEY settings) (ALGORITHM settings) t
          = false ->
        decode_token settings (utc_seconds now_us) t
        = Raise (JWTError "Could not validate token")
        /\ decode_token settings (utc_seconds now_us) t
           <> Raise (JWTError "Token has expired")).
Proof.
  intros Hv _ He.
  rewrite (decode_token_valid settings (utc_seconds now_us) j Hv).
  unfold expired_at. rewrite He. rewrite <- utc_seconds_gt. split.
  - destruct (Z.ltb_spec e (utc_seconds now_us)) as [Hlt | Hge].
    + split; [intros _; exact Hlt | reflexivity].
    + split; [| lia]. destruct (aud (payload j)); discriminate.
  - intros t Ht. rewrite decode_token_invalid by exact Ht.
    split; [reflexivity | discriminate].
Qed.

(** C5 (the code departs from it).  Whatever claims are encoded,
    [decode_token] returns no claims for the token that
    [create_access_token] made of them, at any instant: it raises. *)
Theorem decode_token_create_access_token now data delta t now' :
  create_access_token settings now data delta = Return t ->
  exists m, decode_token settings now' t = Raise (JWTError m).
Proof.
  intros Hc.
  destruct (create_access_token_inv _ _ _ _ Hc) as (e & -> & _).
  unfold encode. rewrite decode_token_valid
    by apply (encode_valid_signature _).
  cbn [payload aud]. destruct (expired_at now' _); eauto.
Qed.

(** X26.  For a token whose claim set names no audience and carries no
    registered claim beyond [sub], [exp], [iat] and [iss], each of the
    type this system writes, [get_email_from_token] reads the subject,
    whoever signed the token and whenever it expired. *)
Lemma get_email_from_token_no_aud now (j : JWS) :
  aud (payload j) = None ->
  private_extra (payload j) = true ->
  get_email_from_token settings now (Compact j)
  = Return (sub (payload j)).
Proof.
  intros Ha _. unfold get_email_from_token, decode, validate_claims,
    validate_aud, validate_iss. cbn. now rewrite Ha.
Qed.

(** C10 (the code departs from it).  For a token made by
    [create_access_token], which embeds the subject of [data],
    [get_email_from_token] returns [None] at every instant. *)
Theorem get_email_from_token_create_access_token now data delta t now' :
  create_access_token settings now data delta = Return t ->
  exists j s, t = Compact j /\ sub (payload j) = Some s
              /\ sub data = Some s
              /\ get_email_from_token settings now' t = Return None.
Proof.
  intros Hc.
  destruct (create_access_token_inv _ _ _ _ Hc) as (e & -> & [s Hs] & _).
  unfold encode. eexists; exists s. split; [reflexivity |].
  cbn [payload sub]. repeat split; try assumption.
Qed.

End CodecClaims.

(* ===================================================================== *)
(** ** Identity resolution *)
(* ===================================================================== *)

Section Resolver.

Variable settings : Settings.

(** [get_current_user] on presented credentials: the stored user of the
    subject of a validly signed, unexpired token, and in every other case
    the one [credentials_exception]. *)
Lemma get_current_user_cases db now (c : HTTPAuthorizationCredentials) :
  get_current_user settings db now (Some c)
  = match credentials c with
    | Malformed _ => Raise credentials_exception
    | Compact j =>
        if valid_signature (SECRET_KEY settings) (ALGORITHM settings)
             (Compact j) && negb (expired_at now (payload j))
        then match sub (payload j) with
             | None => Raise credentials_exception
             | Some email =>
                 match get_or_none db email with
                 | None => Raise credentials_exception
                 | Some user => Return user
                 end
             end
        else Raise credentials_exception
    end.
Proof.
  unfold get_current_user. cbn [bind]. fold dependency_options.
  destruct (credentials c) as [raw|j].
  - destruct (decode_dependency_invalid settings now (Malformed raw)
                eq_refl) as [m ->].
    reflexivity.
  - destruct (valid_signature _ _ (Compact j)) eqn:Hv.
    + rewrite decode_dependency_valid by exact Hv.
      destruct (expired_at now (payload j)); [reflexivity |].
      cbn. now destruct (sub (payload j)).
    + destruct (decode_dependency_invalid settings now (Compact j) Hv)
        as [m ->].
      reflexivity.
Qed.

Lemma get_current_user_optional_cases db now
    (c : HTTPAuthorizationCredentials) :
  get_current_user_optional settings db now (Some c)
  = match credentials c with
    | Malformed _ => Return None
    | Compact j =>
        if valid_signature (SECRET_KEY settings) (ALGORITHM settings)
             (Compact j) && negb (expired_at now (payload j))
        then match sub (payload j) with
             | None => Return None
             | Some email => Return (get_or_none db email)
             end
        else Return None
    end.
Proof.
  unfold get_current_user_optional. fold dependency_options.
  destruct (credentials c) as [raw|j].
  - destruct (decode_dependency_invalid settings now (Malformed raw)
                eq_refl) as [m ->].
    reflexivity.
  - destruct (valid_signature _ _ (Compact j)) eqn:Hv.
    + rewrite decode_dependency_valid by exact Hv.
      destruct (expired_at now (payload j)); [reflexivity |].
      cbn. now destruct (sub (payload j)).
    + destruct (decode_dependency_invalid settings now (Compact j) Hv)
        as [m ->].
      reflexivity.
Qed.

(** [HTTPBearer(auto_error=False)] returns, and returns credentials only
    if the request carries them. *)
Lemma security_optional_cases (request : Request) :
  security_optional request = Return None
  \/ exists c, authorization request = Some c
               /\ security_optional request = Return (Some c).
Proof.
  unfold security_optional, HTTPBearer.
  destruct (authorization request) as [c|]; [| now left].
  destruct (negb _); [now left |].
  destruct (negb _); [now left | right; eauto].
Qed.

(** C1, amended.  When the request carries a Bearer credential, every
    failure of mandatory resolution is the same exception: status 401,
    detail "Could not validate credentials", header WWW-Authenticate:
    Bearer; and resolution does fail so when the token is malformed, not
    validly signed, expired, without subject, or of an unknown subject. *)
Theorem requireIdentity_uniform_failure db now (request : Request)
    (c : HTTPAuthorizationCredentials) :
  security_required request = Return (Some c) ->
  (forall e, requireIdentity settings db now request = Raise e ->
     e = HTTPException 401 "Could not validate credentials"
           (("WWW-Authenticate", "Bearer")%string :: nil))
  /\ (valid_signature (SECRET_KEY settings) (ALGORITHM settings)
        (credentials c) = false ->
      requireIdentity settings db now request
      = Raise credentials_exception)
  /\ (forall j, credentials c = Compact j ->
        expired_at now (payload j) = true
        \/ sub (payload j) = None
        \/ (exists email, sub (payload j) = Some email
                          /\ get_or_none db email = None) ->
        requireIdentity settings db now request
        = Raise credentials_exception).
Proof.
  intros Hs. unfold requireIdentity. rewrite Hs. cbn [bind].
  rewrite get_current_user_cases. repeat split.
  - intros e. fold credentials_exception.
    destruct (credentials c) as [raw|j]; [congruence |].
    destruct (_ && _); [| congruence].
    destruct (sub (payload j)) as [email|]; [| congruence].
    destruct (get_or_none db email); [discriminate | congruence].
  - intros Hv. destruct (credentials c) as [raw|j]; [reflexivity |].
    now rewrite Hv.
  - intros j -> H. destruct (valid_signature _ _ _); [| reflexivity].
    cbn [andb].
    destruct H as [-> | [-> | (email & -> & ->)]]; try reflexivity;
      now destruct (expired_at now (payload j)).
Qed.

(** C2.  Optional resolution returns for every request; it returns "no
    identity" when the header is absent and when the token is malformed,
    not validly signed, expired, without subject or of an unknown
    subject; and a user it returns is the stored user of the subject of
    a token that decoded. *)
Theorem optionalIdentity_never_raises db now (request : Request) :
  exists r, optionalIdentity settings db now request = Return r
    /\ (authorization request = None -> r = None)
    /\ (forall c, authorization request = Some c ->
          valid_signature (SECRET_KEY settings) (ALGORITHM settings)
            (credentials c) = false -> r = None)
    /\ (forall c j, authorization request = Some c ->
          credentials c = Compact j ->
          expired_at now (payload j) = true
          \/ sub (payload j) = None
          \/ (exists email, sub (payload j) = Some email
                            /\ get_or_none db email = None) ->
          r = None)
    /\ (forall u, r = Some u ->
          exists c j email,
            authorization request = Some c
            /\ credentials c = Compact j
            /\ decode now (Compact j) (SECRET_KEY settings)
                 (ALGORITHM settings :: nil) dependency_options None None
               = Return (payload j)
            /\ sub (payload j) = Some email
            /\ get_or_none db email = Some u).
Proof.
  unfold optionalIdentity.
  destruct (security_optional_cases request) as [-> | (c & Ha & ->)];
    cbn [bind].
  - exists None. repeat split; try reflexivity. discriminate.
  - rewrite get_current_user_optional_cases.
    destruct (credentials c) as [raw|j] eqn:Hc.
    { exists None. repeat split; try reflexivity. discriminate. }
    destruct (valid_signature _ _ (Compact j)) eqn:Hv; cbn [andb];
      [| exists None; repeat split; try reflexivity; discriminate].
    destruct (expired_at now (payload j)) eqn:He; cbn [negb];
      [exists None; repeat split; try reflexivity; discriminate |].
    destruct (sub (payload j)) as [email|] eqn:Hsub;
      [| exists None; repeat split; try reflexivity; discriminate].
    exists (get_or_none db email). split; [reflexivity |].
    split; [congruence |]. split; [| split].
    + intros c' Hc' Hv'. rewrite Ha in Hc'. injection Hc' as <-.
      rewrite Hc in Hv'. congruence.
    + intros c' j' Hc' Hj' H. rewrite Ha in Hc'. injection Hc' as <-.
      rewrite Hc in Hj'. injection Hj' as <-.
      destruct H as [H | [H | (email' & H1 & H2)]]; try congruence.
    + intros u Hu. exists c, j, email.
      repeat split; try assumption.
      rewrite decode_dependency_valid by exact Hv. now rewrite He.
Qed.

End Resolver.

(* ===================================================================== *)
(** ** Registration and login *)
(* ===================================================================== *)

Section Endpoints.

Variable settings : Settings.
Variable bcrypt_raw : string -> nat -> string -> string -> string.

(** C8.  When the e-mail of a registration is already in the user table,
    [register] raises the 400 exception "User with this email already
    exists" and leaves the table as it was: the stored user, password
    hash included, is still what the e-mail maps to, and no row and no
    identifier has been added. *)
Theorem register_duplicate_email db now rng (user_data : UserRegister)
    (u : User) :
  get_or_none db (reg_email user_data) = Some u ->
  fst (register settings bcrypt_raw db now rng user_data)
  = Raise (HTTPException 400 "User with this email already exists" nil)
  /\ snd (register settings bcrypt_raw db now rng user_data) = db
  /\ get_or_none (snd (register settings bcrypt_raw db now rng user_data))
       (reg_email user_data) = Some u.
Proof.
  intros Hu. unfold register. rewrite Hu. cbn [fst snd]. now rewrite Hu.
Qed.

(** A registration that returns has stored the user under the e-mail, so
    a second one with that e-mail meets the case above. *)
Lemma register_stores_user db now rng (user_data : UserRegister) r db' :
  register settings bcrypt_raw db now rng user_data = (Return r, db') ->
  exists u, get_or_none db' (reg_email user_data) = Some u
            /\ email u = reg_email user_data
            /\ get_password_hash bcrypt_raw rng (reg_password user_data)
               = Return (hashed_password u).
Proof.
  unfold register, create, get_or_none.
  destruct (rows db !! reg_email user_data) eqn:Hl; [discriminate |].
  destruct (get_password_hash _ _ _) as [h|]; [| discriminate].
  cbn [bind]. destruct (create_user_access_token _ _ _); cbn [bind];
    [| discriminate].
  intros [= _ <-]. cbn [rows]. eexists. rewrite lookup_insert_eq.
  split; [reflexivity |]. split; reflexivity.
Qed.

Lemma register_twice db now rng (user_data : UserRegister) r db'
    now' rng' (again : UserRegister) :
  register settings bcrypt_raw db now rng user_data = (Return r, db') ->
  reg_email again = reg_email user_data ->
  register settings bcrypt_raw db' now' rng' again
  = (Raise (HTTPException 400 "User with this email already exists" nil),
     db').
Proof.
  intros Hr He. destruct (register_stores_user _ _ _ _ _ _ Hr)
    as (u & Hu & _).
  unfold register. now rewrite He, Hu.
Qed.

(** The two causes the endpoint tests for: a login whose e-mail is not in
    the user table and a login whose e-mail is in the table but for whose
    password [verify_password] returns [False] end in the same exception,
    equal in status, detail and headers: 401, "Incorrect email or
    password", WWW-Authenticate: Bearer. *)
Theorem login_failure_indistinguishable db1 db2 now1 now2
    (form1 form2 : OAuth2PasswordRequestForm) (u : User) :
  get_or_none db1 (username form1) = None ->
  get_or_none db2 (username form2) = Some u ->
  verify_password bcrypt_raw (password form2) (hashed_password u)
    = Return false ->
  login settings bcrypt_raw db1 now1 form1
  = login settings bcrypt_raw db2 now2 form2
  /\ login settings bcrypt_raw db1 now1 form1
     = Raise (HTTPException 401 "Incorrect email or password"
                (("WWW-Authenticate", "Bearer")%string :: nil)).
Proof.
  intros H1 H2 Hv. unfold login. rewrite H1, H2, Hv. cbn. now split.
Qed.

(** C9 (the code departs from it).  A wrong password with a NUL byte is
    answered differently for a stored and for an unknown e-mail: for the
    unknown e-mail with the 401 exception "Incorrect email or password",
    for the e-mail of a stored user, whose hash the hasher parses, with
    the hasher's own exception, which the endpoint does not handle. *)
Theorem login_hasher_error_reveals_email db now
    (form1 form2 : OAuth2PasswordRequestForm) (u : User) :
  get_or_none db (username form1) = None ->
  get_or_none db (username form2) = Some u ->
  is_Some (bcrypt_from_string (hashed_password u)) ->
  contains_nul (password form2) = true ->
  login settings bcrypt_raw db now form1
  = Raise (HTTPException 401 "Incorrect email or password"
             (("WWW-Authenticate", "Bearer")%string :: nil))
  /\ login settings bcrypt_raw db now form2
     = Raise (PasswordValueError
                "bcrypt does not allow NULL bytes in password")
  /\ login settings bcrypt_raw db now form1
     <> login settings bcrypt_raw db now form2.
Proof.
  intros H1 H2 [[[[ident rounds] salt] chk] Hp] Hn.
  assert (L1 : login settings bcrypt_raw db now form1
               = Raise (AuthException "Incorrect email or password")).
  { unfold login. now rewrite H1. }
  assert (L2 : login settings bcrypt_raw db now form2
               = Raise (PasswordValueError
                          "bcrypt does not allow NULL bytes in password")).
  { unfold login, verify_password, pwd_context_verify. rewrite H2.
    destruct (bcrypt_identify (hashed_password u)) eqn:Hi.
    - cbn [negb]. rewrite Hp. unfold calc_checksum. now rewrite Hn.
    - apply bcrypt_identify_from_string in Hi. congruence. }
  rewrite L1, L2. repeat split. discriminate.
Qed.

End Endpoints.

(* ===================================================================== *)
(** ** Scenarios *)
(* ===================================================================== *)

Section Scenarios.

Variable settings : Settings.
Variable bcrypt_raw : string -> nat -> string -> string -> string.

Lemma create_user_access_token_inv now (user : User) t :
  create_user_access_token settings now user = Return t ->
  t = encode
        {| sub := Some (email user);
           exp := Some (now + ACCESS_TOKEN_EXPIRE_MINUTES settings * 60);
           iat := Some now;
           iss := Some "event_manager_api"%string;
           aud := Some "event_manager_api_users"%string;
           extra := nil |}
        (SECRET_KEY settings) (ALGORITHM settings).
Proof.
  unfold create_user_access_token.
  destruct (String.eqb (email user) ""); [discriminate |].
  cbn. now intros [= <-].
Qed.

Lemma security_required_bearer (t : Token) :
  has_credentials t = true ->
  security_required (bearer t)
  = Return (Some {| scheme := "Bearer"; credentials := t |}).
Proof.
  intros Ht. unfold security_required, HTTPBearer, bearer.
  cbn [authorization scheme credentials]. now rewrite Ht.
Qed.

(** X27.  Register, then present the token received: mandatory resolution
    yields the user just stored, up to and including the expiry instant. *)
Lemma register_then_requireIdentity db now rng (user_data : UserRegister)
    r db' now' :
  register settings bcrypt_raw db now rng user_data = (Return r, db') ->
  now' <= now + ACCESS_TOKEN_EXPIRE_MINUTES settings * 60 ->
  exists u, requireIdentity settings db' now' (bearer (access_token r))
            = Return u
            /\ email u = reg_email user_data
            /\ get_or_none db' (reg_email user_data) = Some u.
Proof.
  intros Hr Hnow.
  destruct (register_stores_user _ _ _ _ _ _ _ _ Hr) as (u & Hu & He & _).
  exists u. split; [| now split].
  revert Hr. unfold register, create, get_or_none.
  destruct (rows db !! reg_email user_data); [discriminate |].
  destruct (get_password_hash _ _ _) as [h|]; [| discriminate].
  destruct (create_user_access_token _ _ _) as [t|] eqn:Ht; cbn [bind];
    [| discriminate].
  intros [= <- <-]. apply create_user_access_token_inv in Ht. subst t.
  unfold requireIdentity. cbn [access_token token_response].
  rewrite security_required_bearer by reflexivity.
  cbn [bind]. rewrite get_current_user_cases. unfold encode.
  cbn [credentials].
  pose proof (encode_valid_signature settings) as Hv. unfold encode in Hv.
  rewrite Hv. unfold expired_at. cbn [payload exp sub email andb].
  destruct (Z.ltb_spec (now + ACCESS_TOKEN_EXPIRE_MINUTES settings * 60)
              now'); [lia |].
  cbn [negb]. unfold get_or_none in Hu |- *. cbn [rows] in Hu |- *.
  rewrite lookup_insert_eq in Hu |- *. congruence.
Qed.

(** Login with the stored user's password: the token's subject is the
    e-mail. *)
Lemma login_token_subject db now (form_data : OAuth2PasswordRequestForm)
    (u : User) :
  get_or_none db (username form_data) = Some u ->
  verify_password bcrypt_raw (password form_data) (hashed_password u)
    = Return true ->
  email u <> ""%string ->
  exists r j, login settings bcrypt_raw db now form_data = Return r
              /\ access_token r = Compact j
              /\ sub (payload j) = Some (email u).
Proof.
  intros Hu Hv He. unfold login. rewrite Hu, Hv. cbn [bind negb].
  unfold create_user_access_token.
  destruct (String.eqb_spec (email u) ""); [contradiction |].
  cbn. eexists; eexists. repeat split.
Qed.

End Scenarios.

(* ===================================================================== *)
(** ** The statements at concrete inputs *)
(* ===================================================================== *)

(** A request without Authorization header is refused by the security
    scheme with status 403 and detail "Not authenticated", which is not the
    exception of a refused token. *)
Lemma requireIdentity_missing_header :
  requireIdentity default_settings store_alice 1001
    {| authorization := None |}
  = Raise (HTTPException 403 "Not authenticated" nil)
  /\ requireIdentity default_settings store_alice 1001
       {| authorization := None |}
     <> Raise (HTTPException 401 "Could not validate credentials"
                 (("WWW-Authenticate", "Bearer")%string :: nil)).
Proof. split; [reflexivity | discriminate]. Qed.

Lemma requireIdentity_uniform_failure_witness :
  security_required (bearer (Malformed "invalid_token_here"))
  = Return (Some {| scheme := "Bearer";
                    credentials := Malformed "invalid_token_here" |})
  /\ requireIdentity default_settings store_alice 1001
       (bearer (Malformed "invalid_token_here"))
     = Raise credentials_exception.
Proof.
  split; [reflexivity |].
  apply (proj1 (proj2 (requireIdentity_uniform_failure default_settings
           store_alice 1001 (bearer (Malformed "invalid_token_here"))
           {| scheme := "Bearer";
              credentials := Malformed "invalid_token_here" |}
           eq_refl))).
  reflexivity.
Defined.

Lemma decode_token_enforces_audience_witness :
  valid_signature (SECRET_KEY default_settings) (ALGORITHM default_settings)
    (Compact token_alice) = true
  /\ expired_at 1001 (payload token_alice) = false
  /\ aud (payload token_alice) = Some "event_manager_api_users"%string
  /\ decode_token default_settings 1001 (Compact token_alice)
     = Raise (JWTError "Could not validate token").
Proof.
  refine (conj eq_refl (conj eq_refl (conj eq_refl _))).
  apply (proj2 (decode_token_enforces_audience default_settings 1001
           token_alice "event_manager_api_users" eq_refl eq_refl eq_refl)).
Defined.

Lemma decode_token_expired_witness :
  valid_signature (SECRET_KEY default_settings) (ALGORITHM default_settings)
    (Compact token_alice) = true
  /\ exp (payload token_alice) = Some 87400
  /\ 87400 < 87401
  /\ decode_token default_settings 87401 (Compact token_alice)
     = Raise (JWTError "Token has expired").
Proof.
  refine (conj eq_refl (conj eq_refl (conj eq_refl _))).
  apply (proj1 (decode_token_expired default_settings 87401 token_alice
           87400 eq_refl eq_refl)).
  reflexivity.
Defined.

(** Half a second and more after its expiry instant, within the same
    second, a validly signed token is still decoded. *)
Lemma decode_token_during_expiry_second :
  valid_signature (SECRET_KEY default_settings) (ALGORITHM default_settings)
    (Compact token_no_aud) = true
  /\ payload token_no_aud
     = {| sub := Some "a@x.com"%string; exp := Some 87400;
          iat := Some 1000; iss := None; aud := None; extra := nil |}
  /\ exp (payload token_no_aud) = Some 87400
  /\ 87400 * 1000000 < 87400999999
  /\ decode_token default_settings (utc_seconds 87400999999)
       (Compact token_no_aud) = Return (payload token_no_aud).
Proof. repeat split. Qed.

Lemma decode_token_expired_at_instant_witness :
  valid_signature (SECRET_KEY default_settings) (ALGORITHM default_settings)
    (Compact token_alice) = true
  /\ private_extra (payload token_alice) = true
  /\ exp (payload token_alice) = Some 87400
  /\ (87400 + 1) * 1000000 <= 87401000000
  /\ decode_token default_settings (utc_seconds 87401000000)
       (Compact token_alice) = Raise (JWTError "Token has expired").
Proof.
  assert (H : (87400 + 1) * 1000000 <= 87401000000)
    by (vm_compute; discriminate).
  refine (conj eq_refl (conj eq_refl (conj eq_refl (conj H _)))).
  apply (proj2 (proj1 (decode_token_expired_at_instant default_settings
                         87401000000 token_alice 87400 eq_refl eq_refl
                         eq_refl))).
  exact H.
Defined.

Lemma decode_token_create_access_token_witness :
  create_access_token default_settings 1000
    {| sub := Some "a@x.com"%string; exp := None; iat := None; iss := None;
       aud := None; extra := nil |} None
  = Return (Compact token_alice)
  /\ exists m, decode_token default_settings 1001 (Compact token_alice)
               = Raise (JWTError m).
Proof.
  split; [reflexivity |].
  apply (decode_token_create_access_token default_settings 1000
           {| sub := Some "a@x.com"%string; exp := None; iat := None;
              iss := None; aud := None; extra := nil |} None
           (Compact token_alice) 1001 eq_refl).
Defined.

Lemma get_email_from_token_create_access_token_witness :
  create_access_token default_settings 1000
    {| sub := Some "a@x.com"%string; exp := None; iat := None; iss := None;
       aud := None; extra := nil |} None
  = Return (Compact token_alice)
  /\ exists j s, Compact token_alice = Compact j
                 /\ sub (payload j) = Some s
                 /\ Some "a@x.com"%string = Some s
                 /\ get_email_from_token default_settings 1001
                      (Compact token_alice) = Return None.
Proof.
  split; [reflexivity |].
  apply (get_email_from_token_create_access_token default_settings 1000
           {| sub := Some "a@x.com"%string; exp := None; iat := None;
              iss := None; aud := None; extra := nil |} None
           (Compact token_alice) 1001 eq_refl).
Defined.

Lemma verify_password_get_password_hash_witness :
  contains_nul "Secret123" = false
  /\ (String.length "Secret123" <= 72)%nat
  /\ String.length
       (toy_bcrypt "$2b$" 12 (getrandstr (fun _ => 0%nat) 22) "Secret123")
     = 31%nat
  /\ exists h,
       get_password_hash toy_bcrypt (fun _ => 0%nat) "Secret123" = Return h
       /\ verify_password toy_bcrypt "Secret123" h = Return true.
Proof.
  assert (Hl : (String.length "Secret123" <= 72)%nat) by (simpl; lia).
  refine (conj eq_refl (conj Hl (conj eq_refl _))).
  apply (verify_password_get_password_hash toy_bcrypt (fun _ => 0%nat)
           "Secret123" eq_refl Hl eq_refl).
Defined.

(** A secret of ten bytes, valid UTF-8, whose first byte is NUL: hashing
    it raises. *)
Lemma get_password_hash_nul_secret :
  get_password_hash toy_bcrypt (fun _ => 0%nat) (String zero "Secret123")
  = Raise (PasswordValueError
             "bcrypt does not allow NULL bytes in password")
  /\ (String.length (String zero "Secret123") <= 72)%nat.
Proof. split; [reflexivity | simpl; lia]. Qed.

(** The hash column of the fixture user in the model test, which is no
    bcrypt hash: verification raises, it does not return [False]. *)
Lemma verify_password_unparseable_hash :
  bcrypt_from_string "hashed_password" = None
  /\ verify_password toy_bcrypt "Secret123" "hashed_password"
     = Raise UnknownHashError
  /\ verify_password toy_bcrypt "Secret123" "hashed_password"
     <> Return false.
Proof. repeat split; discriminate. Qed.

Lemma verify_password_malformed_hash_raises_witness :
  bcrypt_from_string "$2b$12$short" = None
  /\ verify_password toy_bcrypt "Secret123" "$2b$12$short"
     = Raise MalformedHashError.
Proof.
  split; [reflexivity |].
  destruct (proj1 (verify_password_malformed_hash_raises toy_bcrypt
                     "Secret123" "$2b$12$short") eq_refl)
    as [[H _] | [_ H]];
    [discriminate H | exact H].
Defined.

Lemma register_duplicate_email_witness :
  get_or_none store_alice "a@x.com" = Some alice
  /\ snd (register default_settings toy_bcrypt store_alice 5
            (fun _ => 0%nat)
            {| reg_email := "a@x.com"; reg_first_name := "B";
               reg_last_name := "Y"; reg_password := "Other1234" |})
     = store_alice.
Proof.
  split; [reflexivity |].
  apply (proj1 (proj2 (register_duplicate_email default_settings toy_bcrypt
           store_alice 5 (fun _ => 0%nat)
           {| reg_email := "a@x.com"; reg_first_name := "B";
              reg_last_name := "Y"; reg_password := "Other1234" |}
           alice eq_refl))).
Defined.

Lemma login_failure_indistinguishable_witness :
  get_or_none store_alice "b@x.com" = None
  /\ get_or_none store_alice "a@x.com" = Some alice
  /\ verify_password toy_bcrypt "wrong" (hashed_password alice)
     = Return false
  /\ login default_settings toy_bcrypt store_alice 5
       {| username := "b@x.com"; password := "wrong" |}
     = login default_settings toy_bcrypt store_alice 5
         {| username := "a@x.com"; password := "wrong" |}.
Proof.
  refine (conj eq_refl (conj eq_refl (conj eq_refl _))).
  apply (proj1 (login_failure_indistinguishable default_settings toy_bcrypt
           store_alice store_alice 5 5
           {| username := "b@x.com"; password := "wrong" |}
           {| username := "a@x.com"; password := "wrong" |}
           alice eq_refl eq_refl eq_refl)).
Defined.

(* ===================================================================== *)
(** ** Further properties of the token functions *)
(* ===================================================================== *)

Section TokenFacts.

Variable settings : Settings.
Variable fromtimestamp : Z -> result Z.

(** [jwt.decode] as [is_token_expired] calls it: the expiry check is off,
    the audience check is not. *)
Lemma decode_no_exp_valid now (j : JWS) :
  valid_signature (SECRET_KEY settings) (ALGORITHM settings) (Compact j)
    = true ->
  decode now (Compact j) (SECRET_KEY settings) (ALGORITHM settings :: nil)
    (opt_verify_exp false :: nil) None None
  = match aud (payload j) with
    | Some _ => Raise (JWTClaimsError "Invalid audience")
    | None => Return (payload j)
    end.
Proof.
  intros Hv. unfold decode. cbn [update fold_left update1 defaults
    verify_signature verify_exp verify_aud verify_iss leeway].
  rewrite (jws_verify_valid settings j Hv). cbn [bind].
  unfold validate_claims, validate_aud, validate_iss. cbn.
  now destruct (aud (payload j)).
Qed.

Lemma decode_no_exp_invalid now (t : Token) :
  valid_signature (SECRET_KEY settings) (ALGORITHM settings) t = false ->
  exists m, decode now t (SECRET_KEY settings) (ALGORITHM settings :: nil)
              (opt_verify_exp false :: nil) None None = Raise (JWTError m).
Proof.
  intros Hv. destruct (jws_verify_invalid settings t Hv) as [m Hm].
  exists m. unfold decode. cbn [update fold_left update1 defaults
    verify_signature]. now rewrite Hm.
Qed.

(** X1.  Every token [create_access_token] makes is reported expired by
    [is_token_expired] at every instant, the instant of issue included. *)
Theorem is_token_expired_create_access_token now data delta t now_us :
  create_access_token settings now data delta = Return t ->
  is_token_expired settings fromtimestamp now_us t = Return true.
Proof.
  intros Hc. destruct (create_access_token_inv _ _ _ _ _ Hc) as (e & -> & _).
  unfold is_token_expired, encode.
  rewrite decode_no_exp_valid by apply (encode_valid_signature settings).
  reflexivity.
Qed.

(** X2.  [is_token_expired] answers [False] only for a validly signed
    token without audience whose expiry claim is present and not zero and
    whose local reading is not before the clock; a token that is
    malformed, not validly signed, without expiry or with expiry 0 is
    never reported valid. *)
Theorem is_token_expired_false now_us (t : Token) :
  is_token_expired settings fromtimestamp now_us t = Return false ->
  exists j e l,
    t = Compact j
    /\ valid_signature (SECRET_KEY settings) (ALGORITHM settings) t = true
    /\ aud (payload j) = None
    /\ exp (payload j) = Some e /\ e <> 0
    /\ fromtimestamp e = Return l
    /\ now_us <= l * 1000000.
Proof.
  unfold is_token_expired.
  destruct (valid_signature (SECRET_KEY settings) (ALGORITHM settings) t)
    eqn:Hv.
  - destruct t as [raw|j]; [discriminate Hv |].
    rewrite decode_no_exp_valid by exact Hv.
    destruct (aud (payload j)) eqn:Ha; [discriminate |]. cbn [bind].
    destruct (exp (payload j)) as [e|] eqn:He; [| discriminate].
    destruct (Z.eqb_spec e 0) as [|Hne]; [discriminate |].
    destruct (fromtimestamp e) as [l|x] eqn:Hl; cbn [bind try_except].
    + intros [= Hlt]. exists j, e, l.
      repeat split; try assumption; try reflexivity.
      apply Z.ltb_ge in Hlt. exact Hlt.
    + destruct (is_JWTError x); discriminate.
  - destruct (decode_no_exp_invalid now_us t Hv) as [m Hm].
    destruct (decode_no_exp_invalid (now_us / 1000000) t Hv) as [m' ->].
    discriminate.
Qed.

End TokenFacts.

(* ===================================================================== *)
(** ** Further properties of identity resolution *)
(* ===================================================================== *)

Section ResolverFacts.

Variable settings : Settings.



Lemma utc_seconds_le (now_us e : Z) :
  utc_seconds now_us <= e <-> now_us < (e + 1) * 1000000.
Proof. pose proof (utc_seconds_gt now_us e). lia. Qed.


(** X5.  Mandatory resolution returns a user only for credentials of the
    Bearer scheme whose token is validly signed with the configured key
    and algorithm and not expired, and the user is the stored row of the
    token's subject. *)
Theorem requireIdentity_returns_only_verified db now (request : Request)
    (u : User) :
  requireIdentity settings db now request = Return u ->
  exists c j email,
    authorization request = Some c
    /\ lower (scheme c) = "bearer"%string
    /\ credentials c = Compact j
    /\ valid_signature (SECRET_KEY settings) (ALGORITHM settings)
         (Compact j) = true
    /\ expired_at now (payload j) = false
    /\ sub (payload j) = Some email
    /\ get_or_none db email = Some u.
Proof.
  unfold requireIdentity, security_required, HTTPBearer.
  destruct (authorization request) as [c|]; [| discriminate].
  destruct (negb (negb (String.eqb (scheme c) "") && _)); [discriminate |].
  destruct (String.eqb_spec (lower (scheme c)) "bearer") as [Hb|];
    [| discriminate].
  cbn [negb bind]. rewrite get_current_user_cases.
  destruct (credentials c) as [raw|j] eqn:Hc; [discriminate |].
  destruct (valid_signature _ _ (Compact j)) eqn:Hv; [| discriminate].
  destruct (expired_at now (payload j)) eqn:He; [discriminate |].
  cbn [andb negb].
  destruct (sub (payload j)) as [email|] eqn:Hs; [| discriminate].
  destruct (get_or_none db email) as [u'|] eqn:Hu; [| discriminate].
  intros [= <-]. exists c, j, email. repeat split; assumption.
Qed.

(** X6.  The two dependencies agree on who the caller is: mandatory
    resolution returns a user exactly when optional resolution returns
    that user. *)
Theorem requireIdentity_iff_optionalIdentity db now (request : Request)
    (u : User) :
  requireIdentity settings db now request = Return u
  <-> optionalIdentity settings db now request = Return (Some u).
Proof.
  unfold requireIdentity, optionalIdentity, security_required,
    security_optional, HTTPBearer.
  destruct (authorization request) as [c|]; [| split; discriminate].
  destruct (negb (negb (String.eqb (scheme c) "") && _));
    [split; discriminate |].
  destruct (negb (String.eqb (lower (scheme c)) "bearer"));
    [split; discriminate |].
  cbn [bind]. rewrite get_current_user_cases,
    get_current_user_optional_cases.
  destruct (credentials c) as [raw|j]; [split; discriminate |].
  destruct (_ && _); [| split; discriminate].
  destruct (sub (payload j)) as [email|]; [| split; discriminate].
  destruct (get_or_none db email); split; congruence.
Qed.

End ResolverFacts.

(* ===================================================================== *)
(** ** Further properties of registration, login and password change *)
(* ===================================================================== *)

Section AccountFacts.

Variable settings : Settings.
Variable bcrypt_raw : string -> nat -> string -> string -> string.

Lemma create_store_ok db now e fn ln hp u db' :
  store_ok db -> create db now e fn ln hp = (Return u, db') -> store_ok db'.
Proof.
  intros [Hk Hid]. unfold create.
  destruct (rows db !! e) eqn:He; [discriminate |].
  intros [= <- <-]. split; cbn [rows next_id].
  - intros k u Hl. destruct (decide (e = k)) as [<- | Hne].
    + rewrite lookup_insert_eq in Hl. injection Hl as <-. cbn.
      split; [reflexivity | lia].
    + rewrite lookup_insert_ne in Hl by exact Hne.
      destruct (Hk k u Hl). split; [assumption | lia].
  - intros k1 k2 u1 u2 H1 H2 Heq.
    destruct (decide (e = k1)) as [<- | N1];
      destruct (decide (e = k2)) as [<- | N2]; try reflexivity.
    + rewrite lookup_insert_eq in H1. injection H1 as <-.
      rewrite lookup_insert_ne in H2 by exact N2.
      destruct (Hk k2 u2 H2). cbn in Heq. lia.
    + rewrite lookup_insert_eq in H2. injection H2 as <-.
      rewrite lookup_insert_ne in H1 by exact N1.
      destruct (Hk k1 u1 H1). cbn in Heq. lia.
    + rewrite lookup_insert_ne in H1 by exact N1.
      rewrite lookup_insert_ne in H2 by exact N2.
      exact (Hid k1 k2 u1 u2 H1 H2 Heq).
Qed.

(** Registration keeps the user table well-formed, whatever its
    outcome: every row stays filed under its own e-mail and primary keys
    stay unique and below the next one. *)
Theorem register_store_ok db now rng (user_data : UserRegister) :
  store_ok db ->
  store_ok (snd (register settings bcrypt_raw db now rng user_data)).
Proof.
  intros Hok. unfold register.
  destruct (get_or_none db (reg_email user_data)); [exact Hok |].
  destruct (get_password_hash _ _ _) as [h|]; [| exact Hok].
  destruct (create db now _ _ _ h) as [[u|e] db'] eqn:Hc; cbn [snd].
  - eapply create_store_ok; eassumption.
  - revert Hc. unfold create.
    destruct (rows db !! reg_email user_data); [| discriminate].
    now intros [= _ <-].
Qed.

(** X8.  For an e-mail that is not empty and not yet in the table and a
    password without NUL byte of at most 72 bytes, registration returns: the
    response is of type "bearer" and echoes the e-mail, the new row has the
    next primary key and a hash that verifies the password, and the rows
    under other e-mails are untouched. *)
Theorem register_new_email db now rng (user_data : UserRegister) :
  get_or_none db (reg_email user_data) = None ->
  reg_email user_data <> ""%string ->
  contains_nul (reg_password user_data) = false ->
  (String.length (reg_password user_data) <= 72)%nat ->
  String.length (bcrypt_raw "$2b$" 12 (getrandstr rng 22)
                   (reg_password user_data)) = 31%nat ->
  exists r db' u,
    register settings bcrypt_raw db now rng user_data = (Return r, db')
    /\ token_type r = "bearer"%string
    /\ resp_email r = reg_email user_data
    /\ resp_id r = next_id db
    /\ next_id db' = next_id db + 1
    /\ get_or_none db' (reg_email user_data) = Some u
    /\ id u = next_id db
    /\ verify_password bcrypt_raw (reg_password user_data)
         (hashed_password u) = Return true
    /\ (forall k, k <> reg_email user_data ->
          get_or_none db' k = get_or_none db k).
Proof.
  intros Hfree Hne Hnul Hlen Hraw.
  destruct (get_password_hash_verifies bcrypt_raw rng
              (reg_password user_data) Hnul Hlen Hraw) as (h & Hh & Hv & _).
  unfold register, create. rewrite Hfree.
  unfold get_or_none in Hfree. rewrite Hh, Hfree.
  unfold create_user_access_token. cbn [email].
  destruct (String.eqb_spec (reg_email user_data) ""); [contradiction |].
  cbn. eexists _, _, _. split; [reflexivity |].
  cbn. unfold get_or_none. cbn [rows].
  rewrite lookup_insert_eq.
  repeat split; try reflexivity; try exact Hv.
  intros k Hk. now rewrite lookup_insert_ne by congruence.
Qed.

(** X9.  [login] returns a response only when the e-mail is in the table
    and the stored hash verifies the password; the response describes that
    row and its token carries the row's e-mail as subject. *)
Theorem login_returns_only_verified db now
    (form_data : OAuth2PasswordRequestForm) (r : TokenResponse) :
  login settings bcrypt_raw db now form_data = Return r ->
  exists u j,
    get_or_none db (username form_data) = Some u
    /\ verify_password bcrypt_raw (password form_data) (hashed_password u)
       = Return true
    /\ r = token_response (Compact j) u
    /\ sub (payload j) = Some (email u)
    /\ exp (payload j)
       = Some (now + ACCESS_TOKEN_EXPIRE_MINUTES settings * 60).
Proof.
  unfold login.
  destruct (get_or_none db (username form_data)) as [u|]; [| discriminate].
  destruct (verify_password _ _ _) as [[|]|] eqn:Hv; cbn [bind negb];
    try discriminate.
  destruct (create_user_access_token settings now u) as [t|] eqn:Ht;
    cbn [bind]; [| discriminate].
  intros [= <-]. apply create_user_access_token_inv in Ht. subst t.
  unfold encode. eexists u, _.
  split; [reflexivity |]. split; [exact Hv |].
  split; [reflexivity |]. split; reflexivity.
Qed.

End AccountFacts.

Section PasswordChangeFacts.

Variable settings : Settings.
Variable bcrypt_raw : string -> nat -> string -> string -> string.

(** A verification that returns has accepted the secret. *)
Lemma verify_password_Return_secret (s h : string) (b : bool) :
  verify_password bcrypt_raw s h = Return b ->
  contains_nul s = false /\ (String.length s <= 72)%nat.
Proof.
  unfold verify_password, pwd_context_verify, calc_checksum.
  destruct (negb (bcrypt_identify h)); [discriminate |].
  destruct (bcrypt_from_string h) as [[[[i r] salt] chk]|]; [| discriminate].
  destruct (contains_nul s); [discriminate |].
  destruct (Nat.ltb_spec 72 (String.length s)); [discriminate |].
  intros _. split; [reflexivity | lia].
Qed.

(** Verification against a freshly rendered hash compares checksums. *)
Lemma verify_password_rendered (s salt chk : string) :
  contains_nul s = false -> (String.length s <= 72)%nat ->
  String.length salt = 22%nat -> is_hash64 salt = true ->
  String.length chk = 31%nat ->
  verify_password bcrypt_raw s ("$2b$" +:+ "12" +:+ "$" +:+ salt +:+ chk)
  = Return (String.eqb (bcrypt_raw "$2b$" 12 salt s) chk).
Proof.
  intros Hn Hl Hs H64 Hc. unfold verify_password, pwd_context_verify.
  pose proof (bcrypt_from_string_render salt chk Hs H64 Hc) as Hp.
  unfold bcrypt_identify. unfold bcrypt_from_string in Hp |- *.
  destruct (match_ident ident_values _) as [[i r]|]; [| discriminate Hp].
  cbn [negb]. rewrite Hp.
  now rewrite (calc_checksum_ok _ _ _ _ _ Hn Hl).
Qed.

(** X10.  A password change that fails changes nothing: whatever exception
    ends it, the table is as before.  It fails with the 400 exception
    "Incorrect old password" when the current hash does not verify the old
    password, and with "New password must be different from old password"
    when it verifies the new one. *)
Theorem change_password_failure db now rng (password_data : PasswordChange)
    (current_user : User) :
  (forall e,
     fst (change_password bcrypt_raw db now rng password_data current_user)
     = Raise e ->
     snd (change_password bcrypt_raw db now rng password_data current_user)
     = db)
  /\ (verify_password bcrypt_raw (old_password password_data)
        (hashed_password current_user) = Return false ->
      fst (change_password bcrypt_raw db now rng password_data current_user)
      = Raise (HTTPException 400 "Incorrect old password" nil))
  /\ (verify_password bcrypt_raw (old_password password_data)
        (hashed_password current_user) = Return true ->
      verify_password bcrypt_raw (new_password password_data)
        (hashed_password current_user) = Return true ->
      fst (change_password bcrypt_raw db now rng password_data current_user)
      = Raise (HTTPException 400
                 "New password must be different from old password" nil)).
Proof.
  unfold change_password. repeat split.
  - intros e.
    destruct (verify_password _ (old_password _) _) as [[|]|];
      try reflexivity.
    destruct (verify_password _ (new_password _) _) as [[|]|];
      try reflexivity.
    destruct (get_password_hash _ _ _); [| reflexivity].
    unfold save. discriminate.
  - now intros ->.
  - now intros -> ->.
Qed.

(** X11.  When the current hash verifies the old password and not the new
    one, and the new one has no NUL byte and at most 72 bytes, the change
    returns its message; afterwards the user's row has a hash that
    verifies the new password, [updated_at] is the time of the change, the
    other columns and the rows of other users are as before. *)
Theorem change_password_success db now rng (password_data : PasswordChange)
    (current_user : User) :
  get_or_none db (email current_user) = Some current_user ->
  verify_password bcrypt_raw (old_password password_data)
    (hashed_password current_user) = Return true ->
  verify_password bcrypt_raw (new_password password_data)
    (hashed_password current_user) = Return false ->
  String.length (bcrypt_raw "$2b$" 12 (getrandstr rng 22)
                   (new_password password_data)) = 31%nat ->
  exists db' u',
    change_password bcrypt_raw db now rng password_data current_user
    = (Return "Password changed successfully"%string, db')
    /\ get_or_none db' (email current_user) = Some u'
    /\ verify_password bcrypt_raw (new_password password_data)
         (hashed_password u') = Return true
    /\ id u' = id current_user /\ email u' = email current_user
    /\ first_name u' = first_name current_user
    /\ last_name u' = last_name current_user
    /\ created_at u' = created_at current_user
    /\ updated_at u' = now
    /\ next_id db' = next_id db
    /\ (forall k, k <> email current_user ->
          get_or_none db' k = get_or_none db k).
Proof.
  intros Hrow Hold Hnew Hraw.
  destruct (verify_password_Return_secret _ _ _ Hnew) as [Hn Hl].
  destruct (get_password_hash_verifies bcrypt_raw rng
              (new_password password_data) Hn Hl Hraw) as (h & Hh & Hv & _).
  unfold change_password, save. rewrite Hold, Hnew, Hh.
  cbn [set_hashed_password email]. unfold get_or_none in Hrow.
  rewrite Hrow. eexists _, _. split; [reflexivity |].
  unfold get_or_none. cbn [rows next_id]. rewrite lookup_insert_eq.
  split; [reflexivity |]. cbn. split; [exact Hv |].
  repeat split; try reflexivity.
  intros k Hk. now rewrite lookup_insert_ne by congruence.
Qed.

(** X12.  After a successful change the new password logs in, for the
    same user; and the old password is refused with the login 401 whenever
    the bcrypt primitive gives the two passwords different checksums under
    the new salt. *)
Theorem change_password_then_login db now rng
    (password_data : PasswordChange) (current_user : User) db' now' :
  get_or_none db (email current_user) = Some current_user ->
  email current_user <> ""%string ->
  String.length (bcrypt_raw "$2b$" 12 (getrandstr rng 22)
                   (new_password password_data)) = 31%nat ->
  change_password bcrypt_raw db now rng password_data current_user
  = (Return "Password changed successfully"%string, db') ->
  (exists r,
     login settings bcrypt_raw db' now'
       {| username := email current_user;
          password := new_password password_data |} = Return r
     /\ resp_id r = id current_user)
  /\ (bcrypt_raw "$2b$" 12 (getrandstr rng 22) (old_password password_data)
      <> bcrypt_raw "$2b$" 12 (getrandstr rng 22)
           (new_password password_data) ->
      login settings bcrypt_raw db' now'
        {| username := email current_user;
           password := old_password password_data |}
      = Raise (AuthException "Incorrect email or password")).
Proof.
  intros Hrow Hne Hraw. unfold change_password.
  destruct (verify_password _ (old_password _) _) as [[|]|] eqn:Hold;
    try discriminate.
  destruct (verify_password _ (new_password _) _) as [[|]|] eqn:Hnew;
    try discriminate.
  destruct (verify_password_Return_secret _ _ _ Hnew) as [Hn Hl].
  destruct (verify_password_Return_secret _ _ _ Hold) as [Hon Hol].
  destruct (get_password_hash_verifies bcrypt_raw rng
              (new_password password_data) Hn Hl Hraw)
    as (h & Hh & Hv & Hrender).
  rewrite Hh. unfold save. cbn [set_hashed_password email].
  unfold get_or_none in Hrow. rewrite Hrow. intros [= <-].
  unfold login, get_or_none. cbn [rows username password].
  rewrite lookup_insert_eq. cbn [hashed_password]. split.
  - rewrite Hv. cbn [bind negb]. unfold create_user_access_token.
    cbn [email].
    destruct (String.eqb_spec (email current_user) ""); [contradiction |].
    cbn. eexists. split; reflexivity.
  - intros Hdiff. rewrite Hrender.
    rewrite (verify_password_rendered _ _ _ Hon Hol
               (getrandstr_length rng 22) (getrandstr_hash64 rng 22) Hraw).
    cbn [bind].
    destruct (String.eqb_spec
                (bcrypt_raw "$2b$" 12 (getrandstr rng 22)
                   (old_password password_data))
                (bcrypt_raw "$2b$" 12 (getrandstr rng 22)
                   (new_password password_data))); [contradiction |].
    reflexivity.
Qed.

End PasswordChangeFacts.

(* ===================================================================== *)
(** ** Properties of the authentication service *)
(* ===================================================================== *)

Section ServiceFacts.

Variable settings : Settings.
Variable bcrypt_raw : string -> nat -> string -> string -> string.
Variable fromtimestamp : Z -> result Z.

(** The exceptions of [pwd_context.verify] are the hasher's. *)
Lemma pwd_context_verify_raises (s h : string) (e : exn) :
  pwd_context_verify bcrypt_raw s h = Raise e ->
  e = UnknownHashError \/ e = MalformedHashError
  \/ exists m, e = PasswordValueError m.
Proof.
  unfold pwd_context_verify, calc_checksum.
  destruct (negb (bcrypt_identify h)); [intros [= <-]; now left |].
  destruct (bcrypt_from_string h) as [[[[i r] salt] chk]|];
    [| intros [= <-]; right; now left].
  destruct (contains_nul s); [intros [= <-]; right; right; eauto |].
  destruct (Nat.ltb 72 (String.length s));
    [intros [= <-]; right; right; eauto | discriminate].
Qed.

(** On the clock in whole seconds: a token of the service is accepted
    for the stored user of its subject while the clock reads at most its
    expiry claim, and refused once it reads more. *)
Lemma service_token_resolve_seconds db now (user u : User) now' :
  get_or_none db (email user) = Some u ->
  (now' <= now + ACCESS_TOKEN_EXPIRE_MINUTES settings * 60 ->
   requireIdentity settings db now'
     (bearer (AuthService.create_user_access_token settings now user))
   = Return u)
  /\ (now + ACCESS_TOKEN_EXPIRE_MINUTES settings * 60 < now' ->
      requireIdentity settings db now'
        (bearer (AuthService.create_user_access_token settings now user))
      = Raise credentials_exception).
Proof.
  intros Hu. unfold requireIdentity.
  rewrite security_required_bearer by reflexivity. cbn [bind].
  rewrite get_current_user_cases.
  unfold AuthService.create_user_access_token,
    AuthService.create_access_token, encode. cbn [credentials].
  match goal with
  | |- context [valid_signature _ _ (Compact ?j)] =>
      pose proof (encode_valid_signature settings (payload j)) as Hv
  end.
  unfold encode in Hv. cbn [payload] in Hv. rewrite Hv.
  cbn [payload andb sub]. unfold expired_at. cbn [exp]. rewrite Hu.
  split; intros H;
    destruct (Z.ltb_spec (now + ACCESS_TOKEN_EXPIRE_MINUTES settings * 60)
                now'); try lia; reflexivity.
Qed.

(** X13.  A token the service makes at second [now], which names another
    issuer and another audience than the tokens of the configuration
    module, is accepted by mandatory resolution for the stored user of its
    subject at every wall-clock instant before the end of the second of
    its expiry claim, and refused with the 401 exception from the
    beginning of the next second on. *)
Theorem requireIdentity_service_token db now (user u : User) now_us :
  get_or_none db (email user) = Some u ->
  (now_us < (now + ACCESS_TOKEN_EXPIRE_MINUTES settings * 60 + 1) * 1000000 ->
   requireIdentity settings db (utc_seconds now_us)
     (bearer (AuthService.create_user_access_token settings now user))
   = Return u)
  /\ ((now + ACCESS_TOKEN_EXPIRE_MINUTES settings * 60 + 1) * 1000000
      <= now_us ->
      requireIdentity settings db (utc_seconds now_us)
        (bearer (AuthService.create_user_access_token settings now user))
      = Raise credentials_exception).
Proof.
  intros Hu.
  destruct (service_token_resolve_seconds db now user u
              (utc_seconds now_us) Hu) as [Hin Hout].
  split; intros H.
  - apply Hin. now apply utc_seconds_le.
  - apply Hout. now apply utc_seconds_gt.
Qed.

(** X14.  The service's [decode_token] accepts none of the tokens the
    service makes, and its 401 names the cause: "Invalid audience" while
    the token is unexpired, "Signature has expired." afterwards. *)
Theorem service_decode_token_own_token now (user : User) now' :
  (now' <= now + ACCESS_TOKEN_EXPIRE_MINUTES settings * 60 ->
   AuthService.decode_token settings fromtimestamp now'
     (AuthService.create_user_access_token settings now user)
   = Raise (HTTPException 401
              "Could not validate credentials: Invalid audience"
              (("WWW-Authenticate", "Bearer")%string :: nil)))
  /\ (now + ACCESS_TOKEN_EXPIRE_MINUTES settings * 60 < now' ->
      AuthService.decode_token settings fromtimestamp now'
        (AuthService.create_user_access_token settings now user)
      = Raise (HTTPException 401
                 "Could not validate credentials: Signature has expired."
                 (("WWW-Authenticate", "Bearer")%string :: nil))).
Proof.
  unfold AuthService.decode_token, AuthService.create_user_access_token,
    AuthService.create_access_token, encode.
  match goal with
  | |- context [decode _ (Compact ?j)] =>
      pose proof (encode_valid_signature settings (payload j)) as Hv
  end.
  unfold encode in Hv. cbn [payload] in Hv.
  rewrite decode_default_valid by exact Hv.
  unfold expired_at. cbn [payload exp aud].
  split; intros H;
    destruct (Z.ltb_spec (now + ACCESS_TOKEN_EXPIRE_MINUTES settings * 60)
                now'); try lia; reflexivity.
Qed.

(** X15.  The login endpoint and the service's [authenticate_user] decide
    alike: for a table whose rows have an e-mail, the endpoint returns a
    response exactly when the service returns a user, and raises its 401
    exactly when the service returns [None]. *)
Theorem login_iff_authenticate_user db now
    (form_data : OAuth2PasswordRequestForm) :
  (forall k u, get_or_none db k = Some u -> email u <> ""%string) ->
  ((exists r, login settings bcrypt_raw db now form_data = Return r)
   <-> (exists u, AuthService.authenticate_user bcrypt_raw db
                    (username form_data) (password form_data)
                  = Return (Some u)))
  /\ (login settings bcrypt_raw db now form_data
      = Raise (AuthException "Incorrect email or password")
      <-> AuthService.authenticate_user bcrypt_raw db
            (username form_data) (password form_data) = Return None).
Proof.
  intros Hemail. unfold login, AuthService.authenticate_user,
    AuthService.verify_password, verify_password.
  destruct (get_or_none db (username form_data)) as [u|] eqn:Hu.
  - specialize (Hemail _ _ Hu).
    destruct (pwd_context_verify bcrypt_raw _ _) as [[|]|e] eqn:Hv;
      cbn [bind negb];
      [unfold create_user_access_token;
       destruct (String.eqb_spec (email u) ""); [contradiction |]; cbn | |];
      split; split; intros H;
        try first [ reflexivity | discriminate H
                  | (lazymatch type of H with
                     | ex _ => destruct H as [? H']; discriminate H'
                     end)
                  | solve [eauto] ].
    apply pwd_context_verify_raises in Hv. injection H as ->.
    destruct Hv as [Hv | [Hv | [m Hv]]]; discriminate Hv.
  - split; split; intros H;
      first [ reflexivity | discriminate H
            | (lazymatch type of H with
               | ex _ => destruct H as [? H']; discriminate H'
               end) ].
Qed.

(** X16.  The registration endpoint and the service's [register_user]
    write the same table, and when the endpoint returns a response it
    describes the user the service returns. *)
Theorem register_register_user db now rng (user_data : UserRegister) :
  snd (register settings bcrypt_raw db now rng user_data)
  = snd (AuthService.register_user bcrypt_raw db now rng user_data)
  /\ (forall r,
        fst (register settings bcrypt_raw db now rng user_data) = Return r ->
        exists u,
          fst (AuthService.register_user bcrypt_raw db now rng user_data)
          = Return u
          /\ r = token_response (access_token r) u).
Proof.
  unfold register, AuthService.register_user, AuthService.get_password_hash.
  destruct (get_or_none db (reg_email user_data));
    [split; [reflexivity | discriminate] |].
  destruct (get_password_hash bcrypt_raw rng _) as [h|] eqn:Hh.
  - unfold get_password_hash in Hh. rewrite Hh.
    destruct (create db now _ _ _ h) as [[u|e] db']; cbn [fst snd].
    + split; [reflexivity |]. intros r.
      destruct (create_user_access_token settings now u); cbn [bind];
        [| discriminate].
      intros [= <-]. exists u. split; reflexivity.
    + split; [reflexivity | discriminate].
  - unfold get_password_hash in Hh. rewrite Hh.
    split; [reflexivity | discriminate].
Qed.

End ServiceFacts.

(* ===================================================================== *)
(** ** Likes, registrations and deletion of events *)
(* ===================================================================== *)

Section EventFacts.

Implicit Types (events : gmap Z Event) (e : Event) (u : User).

Lemma size_add_user (s : gset Z) (x : Z) :
  x ∉ s -> Z.of_nat (size (s ∪ {[x]})) = Z.of_nat (size s) + 1.
Proof.
  intros Hx. rewrite size_union by set_solver. rewrite size_singleton. lia.
Qed.

Lemma size_remove_user (s : gset Z) (x : Z) :
  x ∈ s -> Z.of_nat (size (s ∖ {[x]})) = Z.of_nat (size s) - 1.
Proof.
  intros Hx. rewrite size_difference by set_solver.
  rewrite size_singleton.
  assert (size s <> 0)%nat by (intros H0; apply size_empty_inv in H0;
                               set_solver).
  lia.
Qed.

(** X17.  A like toggle on an existing event flips the caller's like and
    nothing else: when the counter agreed with the set of likers before, it
    agrees after, the registrations are as before, and no other event
    changes. *)
Theorem toggle_like_counts_agree events now event_id u e :
  events !! event_id = Some e ->
  likes_count e = Z.of_nat (size (liked_by e)) ->
  exists e',
    toggle_like events now event_id u
    = (Return e', <[event_id := e']> events)
    /\ likes_count e' = Z.of_nat (size (liked_by e'))
    /\ (id u ∈ liked_by e' <-> id u ∉ liked_by e)
    /\ (forall x, x <> id u -> x ∈ liked_by e' <-> x ∈ liked_by e)
    /\ participants e' = participants e
    /\ participants_count e' = participants_count e
    /\ organizer_id e' = organizer_id e.
Proof.
  intros He Hc. unfold toggle_like. rewrite He.
  eexists. split; [reflexivity |].
  destruct (bool_decide_reflect (id u ∈ liked_by e)) as [Hin | Hout];
    cbn [with_likes likes_count liked_by participants participants_count
         organizer_id].
  - rewrite size_remove_user by exact Hin. rewrite Hc.
    assert (size (liked_by e) <> 0)%nat
      by (intros H0; apply size_empty_inv in H0; set_solver).
    repeat split; try lia; try set_solver.
  - rewrite size_add_user by exact Hout. rewrite Hc.
    repeat split; try lia; try set_solver.
Qed.

(** X18.  Two like toggles by the same user restore the event: when the
    counter agreed with the set of likers, the likers and the counter
    after the second toggle are those before the first, and only
    [updated_at] has moved. *)
Theorem toggle_like_twice events now1 now2 event_id u e :
  events !! event_id = Some e ->
  likes_count e = Z.of_nat (size (liked_by e)) ->
  toggle_like (snd (toggle_like events now1 event_id u)) now2 event_id u
  = (Return (with_likes e (liked_by e) (likes_count e) now2),
     <[event_id := with_likes e (liked_by e) (likes_count e) now2]> events).
Proof.
  intros He Hc. unfold toggle_like at 2. rewrite He. cbn [snd].
  unfold toggle_like. rewrite lookup_insert_eq. rewrite insert_insert_eq.
  destruct (bool_decide_reflect (id u ∈ liked_by e)) as [Hin | Hout];
    cbn [with_likes liked_by likes_count].
  - rewrite bool_decide_eq_false_2 by set_solver.
    assert (Hs : liked_by e ∖ {[id u]} ∪ {[id u]} = liked_by e).
    { apply set_eq. intros x. destruct (decide (x = id u)); set_solver. }
    assert (size (liked_by e) <> 0)%nat
      by (intros H0; apply size_empty_inv in H0; set_solver).
    assert (Hn : Z.max 0 (likes_count e - 1) + 1 = likes_count e) by lia.
    unfold with_likes. cbn. now rewrite Hs, Hn.
  - rewrite bool_decide_eq_true_2 by set_solver.
    assert (Hs : (liked_by e ∪ {[id u]}) ∖ {[id u]} = liked_by e)
      by set_solver.
    assert (Hn : Z.max 0 (likes_count e + 1 - 1) = likes_count e) by lia.
    unfold with_likes. cbn. now rewrite Hs, Hn.
Qed.

(** X19.  Registration for an event is refused the second time: after a
    registration that returned, another one by the same user raises the
    400 exception "Already registered for this event" and leaves the table
    as the first one left it. *)
Theorem register_for_event_twice events now1 now2 event_id u e1 events1 :
  register_for_event events now1 event_id u = (Return e1, events1) ->
  register_for_event events1 now2 event_id u
  = (Raise (HTTPException 400 "Already registered for this event" nil),
     events1).
Proof.
  unfold register_for_event at 1.
  destruct (events !! event_id) as [e|]; [| discriminate].
  destruct (bool_decide (id u ∈ participants e)); [discriminate |].
  intros [= <- <-]. unfold register_for_event.
  rewrite lookup_insert_eq. cbn [with_participants participants].
  now rewrite bool_decide_eq_true_2 by set_solver.
Qed.

(** X20.  Registering and then unregistering restores the event: when the
    counter agreed with the set of participants and the user was not
    registered, participants and counter are afterwards what they were,
    and only [updated_at] has moved. *)
Theorem register_then_unregister events now1 now2 event_id u e :
  events !! event_id = Some e ->
  participants_count e = Z.of_nat (size (participants e)) ->
  id u ∉ participants e ->
  unregister_from_event
    (snd (register_for_event events now1 event_id u)) now2 event_id u
  = (Return "Successfully unregistered from event"%string,
     <[event_id :=
         with_participants e (participants e) (participants_count e) now2]>
       events).
Proof.
  intros He Hc Hout. unfold register_for_event. rewrite He.
  rewrite bool_decide_eq_false_2 by exact Hout. cbn [snd].
  unfold unregister_from_event. rewrite lookup_insert_eq, insert_insert_eq.
  cbn [with_participants participants participants_count].
  rewrite bool_decide_eq_true_2 by set_solver. cbn [negb].
  assert (Hs : (participants e ∪ {[id u]}) ∖ {[id u]} = participants e)
    by set_solver.
  assert (Hn : Z.max 0 (participants_count e + 1 - 1)
               = participants_count e) by lia.
  unfold with_participants. cbn. now rewrite Hs, Hn.
Qed.

(** X21.  Registering and unregistering keep the participant counter in
    step with the set of participants: whenever either returns, the
    counter of the stored event is the size of its set, provided it was
    before. *)
Theorem participants_count_agrees events now event_id u e :
  events !! event_id = Some e ->
  participants_count e = Z.of_nat (size (participants e)) ->
  (forall r events',
     register_for_event events now event_id u = (Return r, events') ->
     exists e', events' !! event_id = Some e'
                /\ participants e' = participants e ∪ {[id u]}
                /\ participants_count e'
                   = Z.of_nat (size (participants e')))
  /\ (forall r events',
        unregister_from_event events now event_id u = (Return r, events') ->
        exists e', events' !! event_id = Some e'
                   /\ participants e' = participants e ∖ {[id u]}
                   /\ participants_count e'
                      = Z.of_nat (size (participants e'))).
Proof.
  intros He Hc. split; intros r events'.
  - unfold register_for_event. rewrite He.
    destruct (bool_decide_reflect (id u ∈ participants e)) as [Hin | Hout];
      [discriminate |].
    intros [= <- <-]. eexists. rewrite lookup_insert_eq.
    split; [reflexivity |]. cbn [with_participants participants
      participants_count]. split; [reflexivity |].
    rewrite size_add_user by exact Hout. lia.
  - unfold unregister_from_event. rewrite He.
    destruct (bool_decide_reflect (id u ∈ participants e)) as [Hin | Hout];
      [| discriminate].
    cbn [negb]. intros [= <- <-]. eexists. rewrite lookup_insert_eq.
    split; [reflexivity |]. cbn [with_participants participants
      participants_count]. split; [reflexivity |].
    rewrite size_remove_user by exact Hin.
    assert (size (participants e) <> 0)%nat
      by (intros H0; apply size_empty_inv in H0; set_solver).
    lia.
Qed.

(** X22.  Only its organizer deletes an event: a deletion that returns was
    asked by the organizer and the event is gone afterwards, with every
    other event in place; asked by anyone else it raises the 403 exception
    and the table is unchanged. *)
Theorem delete_event_only_organizer events event_id u :
  (forall m events',
     delete_event events event_id u = (Return m, events') ->
     exists e, events !! event_id = Some e
               /\ organizer_id e = id u
               /\ get_event events' event_id
                  = Raise (HTTPException 404 "Event not found" nil)
               /\ (forall k, k <> event_id -> events' !! k = events !! k))
  /\ (forall e, events !! event_id = Some e -> organizer_id e <> id u ->
        delete_event events event_id u
        = (Raise (HTTPException 403 "You can only delete your own events"
                    nil), events)).
Proof.
  unfold delete_event. split.
  - intros m events'. destruct (events !! event_id) as [e|] eqn:He;
      [| discriminate].
    destruct (Z.eqb_spec (organizer_id e) (id u)) as [Ho|]; [| discriminate].
    cbn [negb]. intros [= _ <-]. exists e.
    unfold get_event. rewrite lookup_delete_eq.
    repeat split; try assumption; try reflexivity.
    intros k Hk. now rewrite lookup_delete_ne by congruence.
  - intros e -> Hne.
    destruct (Z.eqb_spec (organizer_id e) (id u)); [contradiction |].
    reflexivity.
Qed.

End EventFacts.

(* ===================================================================== *)
(** ** Pages of the listings *)
(* ===================================================================== *)

Section ListingFacts.

Variable order_by_created_at_desc : list Event -> list Event.

Lemma page_count_bounds (total size : Z) :
  1 <= size -> 0 <= total ->
  (page_count total size - 1) * size < total <= page_count total size * size.
Proof.
  intros Hs Ht. unfold page_count.
  pose proof (Z.div_mod (total + size - 1) size ltac:(lia)) as Hdm.
  pose proof (Z.mod_pos_bound (total + size - 1) size ltac:(lia)) as Hb.
  nia.
Qed.

(** The first [n] pages of [size] rows are the first [n * size] rows. *)
Lemma page_items_concat {A : Type} (query : list A) (size : Z) (n : nat) :
  1 <= size ->
  concat (List.map (fun p => page_items query (Z.of_nat p) size)
            (seq 1 n))
  = take (n * Z.to_nat size) query.
Proof.
  intros Hs. induction n as [|n IH]; [reflexivity |].
  rewrite seq_S, List.map_app, concat_app, IH. cbn [List.map concat].
  rewrite app_nil_r. unfold page_items.
  replace (Z.to_nat ((Z.of_nat (1 + n) - 1) * size))
    with (n * Z.to_nat size)%nat by nia.
  replace (S n * Z.to_nat size)%nat
    with (n * Z.to_nat size + Z.to_nat size)%nat by lia.
  generalize (n * Z.to_nat size)%nat as a.
  generalize (Z.to_nat size) as b. clear.
  intros b a. revert query.
  induction a as [|a IHa]; intros [|x query]; cbn;
    try reflexivity; try (now destruct b).
  now rewrite IHa.
Qed.

Lemma concat_map_map {A B C : Type} (f : B -> C) (g : A -> list B)
    (l : list A) :
  concat (List.map (fun p => List.map f (g p)) l)
  = List.map f (concat (List.map g l)).
Proof.
  induction l as [|a l IH]; [reflexivity |].
  cbn [List.map concat]. now rewrite List.map_app, IH.
Qed.

(** X24.  The page count of a listing is the ceiling of total over size:
    for a size of at least 1, that many pages hold every row and one page
    fewer does not (no page at all when there is no row). *)
Theorem get_my_created_events_with_status_pages events (page size : Z)
    (current_user : User) :
  1 <= size ->
  let r := get_my_created_events_with_status order_by_created_at_desc
             events page size current_user in
  (pg_pages r - 1) * size < pg_total r <= pg_pages r * size
  /\ (pg_total r = 0 -> pg_pages r = 0)
  /\ (length (pg_items r) <= Z.to_nat size)%nat.
Proof.
  intros Hs r. subst r. unfold get_my_created_events_with_status.
  cbn [pg_pages pg_total pg_items].
  set (total := Z.of_nat (length _)).
  assert (0 <= total) by (subst total; lia).
  split; [now apply page_count_bounds |]. split.
  - intros H0. unfold page_count. rewrite H0.
    apply Z.div_small. lia.
  - rewrite length_map. unfold page_items. rewrite length_take. lia.
Qed.

(** [order_by("-created_at")] rearranges the rows it is given: it drops
    none and repeats none. *)
Hypothesis order_by_permutation : forall l,
  Permutation (order_by_created_at_desc l) l.

(** X25.  The pages of the listing split the rows of the query: read one
    after the other, pages 1 to the page count give the rows in the order
    of the query, each with the caller's own like and registration status,
    and the events listed are a rearrangement of the rows of the table
    that the user organised: none is missing and none is repeated. *)
Theorem get_my_created_events_with_status_all_pages events (size : Z)
    (current_user : User) :
  1 <= size ->
  let pages :=
    pg_pages (get_my_created_events_with_status order_by_created_at_desc
                events 1 size current_user) in
  let listed :=
    concat
      (List.map
         (fun p =>
            pg_items (get_my_created_events_with_status
                        order_by_created_at_desc events (Z.of_nat p) size
                        current_user))
         (seq 1 (Z.to_nat pages))) in
  listed
  = List.map
      (fun event =>
         {| base_event := event;
            is_liked := bool_decide (id current_user ∈ liked_by event);
            is_registered :=
              bool_decide (id current_user ∈ participants event) |})
      (created_events_query order_by_created_at_desc events current_user)
  /\ Permutation (List.map base_event listed)
       (List.filter (fun e => organizer_id e =? id current_user)
          (map_to_list events).*2).
Proof.
  intros Hs pages listed.
  assert (Heq : listed
                = List.map
                    (fun event =>
                       {| base_event := event;
                          is_liked :=
                            bool_decide (id current_user ∈ liked_by event);
                          is_registered :=
                            bool_decide
                              (id current_user ∈ participants event) |})
                    (created_events_query order_by_created_at_desc events
                       current_user)).
  { subst listed pages.
    unfold get_my_created_events_with_status. cbn [pg_pages pg_items].
    set (query := created_events_query _ events current_user).
    set (total := Z.of_nat (length (List.filter _ _))).
    set (f := fun event : Event => _).
    assert (Hlen : total = Z.of_nat (length query)).
    { subst total query. unfold created_events_query.
      now rewrite (Permutation_length (order_by_permutation _)). }
    assert (Ht : 0 <= total) by lia.
    pose proof (page_count_bounds total size Hs Ht) as [_ Hub].
    etransitivity;
      [apply (concat_map_map f
                (fun p => page_items query (Z.of_nat p) size)) |].
    rewrite (page_items_concat query size _ Hs).
    rewrite take_ge; [reflexivity |].
    assert (0 <= page_count total size).
    { unfold page_count. apply Z.div_pos; lia. }
    nia. }
  split; [exact Heq |].
  rewrite Heq, List.map_map. cbn [base_event]. rewrite List.map_id.
  apply order_by_permutation.
Qed.

End ListingFacts.

(* ===================================================================== *)
(** ** The further properties at concrete inputs *)
(* ===================================================================== *)

Lemma is_token_expired_create_access_token_witness :
  create_access_token default_settings 1000 (only_sub "a@x.com") None
  = Return (Compact token_alice)
  /\ is_token_expired default_settings utc_fromtimestamp 1000000000
       (Compact token_alice) = Return true.
Proof.
  refine (conj eq_refl _).
  apply (is_token_expired_create_access_token default_settings
           utc_fromtimestamp 1000 (only_sub "a@x.com") None
           (Compact token_alice) 1000000000 eq_refl).
Defined.

Lemma is_token_expired_false_witness :
  is_token_expired default_settings utc_fromtimestamp 1000000000
    (Compact token_no_aud) = Return false
  /\ exists j e l,
       Compact token_no_aud = Compact j
       /\ valid_signature (SECRET_KEY default_settings)
            (ALGORITHM default_settings) (Compact token_no_aud) = true
       /\ aud (payload j) = None
       /\ exp (payload j) = Some e /\ e <> 0
       /\ utc_fromtimestamp e = Return l
       /\ 1000000000 <= l * 1000000.
Proof.
  refine (conj eq_refl _).
  apply (is_token_expired_false default_settings utc_fromtimestamp
           1000000000 (Compact token_no_aud) eq_refl).
Defined.



Lemma requireIdentity_returns_only_verified_witness :
  requireIdentity default_settings store_alice 1001
    (bearer (Compact token_alice)) = Return alice
  /\ exists c j email,
       authorization (bearer (Compact token_alice)) = Some c
       /\ lower (scheme c) = "bearer"%string
       /\ credentials c = Compact j
       /\ valid_signature (SECRET_KEY default_settings)
            (ALGORITHM default_settings) (Compact j) = true
       /\ expired_at 1001 (payload j) = false
       /\ sub (payload j) = Some email
       /\ get_or_none store_alice email = Some alice.
Proof.
  refine (conj eq_refl _).
  apply (requireIdentity_returns_only_verified default_settings store_alice
           1001 (bearer (Compact token_alice)) alice eq_refl).
Defined.

Lemma store_ok_empty_store : store_ok empty_store.
Proof.
  split; cbn [rows empty_store].
  - intros k u H. rewrite lookup_empty in H. discriminate H.
  - intros k1 k2 u1 u2 H. rewrite lookup_empty in H. discriminate H.
Defined.

Lemma register_store_ok_witness :
  store_ok empty_store
  /\ store_ok (snd (register default_settings toy_bcrypt empty_store 5
                      (fun _ => 0%nat) bob_registration)).
Proof.
  refine (conj store_ok_empty_store _).
  apply (register_store_ok default_settings toy_bcrypt empty_store 5
           (fun _ => 0%nat) bob_registration store_ok_empty_store).
Defined.

Lemma register_new_email_witness :
  get_or_none store_alice (reg_email bob_registration) = None
  /\ reg_email bob_registration <> ""%string
  /\ contains_nul (reg_password bob_registration) = false
  /\ (String.length (reg_password bob_registration) <= 72)%nat
  /\ String.length (toy_bcrypt "$2b$" 12 (getrandstr (fun _ => 0%nat) 22)
                      (reg_password bob_registration)) = 31%nat
  /\ exists r db' u,
       register default_settings toy_bcrypt store_alice 5 (fun _ => 0%nat)
         bob_registration = (Return r, db')
       /\ token_type r = "bearer"%string
       /\ resp_email r = reg_email bob_registration
       /\ resp_id r = next_id store_alice
       /\ next_id db' = next_id store_alice + 1
       /\ get_or_none db' (reg_email bob_registration) = Some u
       /\ id u = next_id store_alice
       /\ verify_password toy_bcrypt (reg_password bob_registration)
            (hashed_password u) = Return true
       /\ (forall k, k <> reg_email bob_registration ->
             get_or_none db' k = get_or_none store_alice k).
Proof.
  assert (Hne : reg_email bob_registration <> ""%string) by discriminate.
  assert (Hl : (String.length (reg_password bob_registration) <= 72)%nat)
    by (simpl; lia).
  refine (conj eq_refl (conj Hne (conj eq_refl (conj Hl (conj eq_refl _))))).
  apply (register_new_email default_settings toy_bcrypt store_alice 5
           (fun _ => 0%nat) bob_registration eq_refl Hne eq_refl Hl eq_refl).
Defined.

Lemma login_returns_only_verified_witness :
  login default_settings toy_bcrypt store_alice 5
    {| username := "a@x.com"; password := "Secret123" |}
  = Return (token_response
              (Compact {| alg := "HS256";
                          signer := Some (SECRET_KEY default_settings);
                          payload := claims_of "a@x.com" 5 86405 |})
              alice)
  /\ exists u j,
       get_or_none store_alice "a@x.com" = Some u
       /\ verify_password toy_bcrypt "Secret123" (hashed_password u)
          = Return true
       /\ token_response
            (Compact {| alg := "HS256";
                        signer := Some (SECRET_KEY default_settings);
                        payload := claims_of "a@x.com" 5 86405 |})
            alice
          = token_response (Compact j) u
       /\ sub (payload j) = Some (email u)
       /\ exp (payload j) = Some (5 + 1440 * 60).
Proof.
  refine (conj eq_refl _).
  apply (login_returns_only_verified default_settings toy_bcrypt store_alice
           5 {| username := "a@x.com"; password := "Secret123" |} _
           eq_refl).
Defined.

Lemma change_password_success_witness :
  get_or_none store_alice (email alice) = Some alice
  /\ verify_password toy_bcrypt "Secret123" (hashed_password alice)
     = Return true
  /\ verify_password toy_bcrypt "NewSecret1" (hashed_password alice)
     = Return false
  /\ String.length (toy_bcrypt "$2b$" 12 (getrandstr (fun _ => 0%nat) 22)
                      "NewSecret1") = 31%nat
  /\ fst (change_password toy_bcrypt store_alice 9 (fun _ => 0%nat)
            {| old_password := "Secret123"; new_password := "NewSecret1" |}
            alice)
     = Return "Password changed successfully"%string.
Proof.
  refine (conj eq_refl (conj eq_refl (conj eq_refl (conj eq_refl _)))).
  destruct (change_password_success toy_bcrypt store_alice 9
              (fun _ => 0%nat)
              {| old_password := "Secret123"; new_password := "NewSecret1" |}
              alice eq_refl eq_refl eq_refl eq_refl)
    as (db' & u' & H & _).
  now rewrite H.
Defined.

Lemma change_password_then_login_witness :
  get_or_none store_alice (email alice) = Some alice
  /\ email alice <> ""%string
  /\ String.length (toy_bcrypt "$2b$" 12 (getrandstr (fun _ => 0%nat) 22)
                      "NewSecret1") = 31%nat
  /\ change_password toy_bcrypt store_alice 9 (fun _ => 0%nat)
       {| old_password := "Secret123"; new_password := "NewSecret1" |} alice
     = (Return "Password changed successfully"%string,
        snd (change_password toy_bcrypt store_alice 9 (fun _ => 0%nat)
               {| old_password := "Secret123";
                  new_password := "NewSecret1" |} alice))
  /\ exists r,
       login default_settings toy_bcrypt
         (snd (change_password toy_bcrypt store_alice 9 (fun _ => 0%nat)
                 {| old_password := "Secret123";
                    new_password := "NewSecret1" |} alice))
         20 {| username := email alice; password := "NewSecret1" |}
       = Return r
       /\ resp_id r = id alice.
Proof.
  assert (Hne : email alice <> ""%string) by discriminate.
  refine (conj eq_refl (conj Hne (conj eq_refl (conj eq_refl _)))).
  apply (proj1 (change_password_then_login default_settings toy_bcrypt
                  store_alice 9 (fun _ => 0%nat)
                  {| old_password := "Secret123";
                     new_password := "NewSecret1" |}
                  alice _ 20 eq_refl Hne eq_refl eq_refl)).
Defined.

Lemma requireIdentity_service_token_witness :
  get_or_none store_alice (email alice) = Some alice
  /\ 87400999999
     < (1000 + ACCESS_TOKEN_EXPIRE_MINUTES default_settings * 60 + 1)
       * 1000000
  /\ requireIdentity default_settings store_alice (utc_seconds 87400999999)
       (bearer (AuthService.create_user_access_token default_settings 1000
                  alice))
     = Return alice.
Proof.
  assert (H : 87400999999
              < (1000 + ACCESS_TOKEN_EXPIRE_MINUTES default_settings * 60
                 + 1) * 1000000) by (vm_compute; reflexivity).
  refine (conj eq_refl (conj H _)).
  apply (proj1 (requireIdentity_service_token default_settings store_alice
                  1000 alice alice 87400999999 eq_refl) H).
Defined.

Lemma store_alice_emails (k : string) (u : User) :
  get_or_none store_alice k = Some u -> email u <> ""%string.
Proof.
  unfold get_or_none, store_alice. cbn [rows]. intros H.
  apply lookup_singleton_Some in H as [_ <-]. discriminate.
Defined.

Lemma login_iff_authenticate_user_witness :
  (forall k u, get_or_none store_alice k = Some u -> email u <> ""%string)
  /\ (login default_settings toy_bcrypt store_alice 5
        {| username := "a@x.com"; password := "wrong" |}
      = Raise (AuthException "Incorrect email or password")
      <-> AuthService.authenticate_user toy_bcrypt store_alice
            "a@x.com" "wrong" = Return None).
Proof.
  refine (conj store_alice_emails _).
  apply (proj2 (login_iff_authenticate_user default_settings toy_bcrypt
                  store_alice 5
                  {| username := "a@x.com"; password := "wrong" |}
                  store_alice_emails)).
Defined.

Lemma toggle_like_counts_agree_witness :
  one_event !! 7 = Some concert
  /\ likes_count concert = Z.of_nat (size (liked_by concert))
  /\ exists e',
       toggle_like one_event 11 7 alice
       = (Return e', <[7 := e']> one_event)
       /\ likes_count e' = Z.of_nat (size (liked_by e'))
       /\ (id alice ∈ liked_by e' <-> id alice ∉ liked_by concert)
       /\ (forall x, x <> id alice ->
             x ∈ liked_by e' <-> x ∈ liked_by concert)
       /\ participants e' = participants concert
       /\ participants_count e' = participants_count concert
       /\ organizer_id e' = organizer_id concert.
Proof.
  refine (conj eq_refl (conj eq_refl _)).
  apply (toggle_like_counts_agree one_event 11 7 alice concert
           eq_refl eq_refl).
Defined.

Lemma toggle_like_twice_witness :
  one_event !! 7 = Some concert
  /\ likes_count concert = Z.of_nat (size (liked_by concert))
  /\ toggle_like (snd (toggle_like one_event 11 7 alice)) 12 7 alice
     = (Return (with_likes concert (liked_by concert) (likes_count concert)
                  12),
        <[7 := with_likes concert (liked_by concert) (likes_count concert)
                 12]> one_event).
Proof.
  refine (conj eq_refl (conj eq_refl _)).
  apply (toggle_like_twice one_event 11 12 7 alice concert eq_refl eq_refl).
Defined.

Lemma register_for_event_twice_witness :
  register_for_event one_event 11 7 alice
  = (fst (register_for_event one_event 11 7 alice),
     snd (register_for_event one_event 11 7 alice))
  /\ fst (register_for_event one_event 11 7 alice)
     = Return (with_participants concert {[ 1 ]} 1 11)
  /\ fst (register_for_event (snd (register_for_event one_event 11 7 alice))
            12 7 alice)
     = Raise (HTTPException 400 "Already registered for this event" nil).
Proof.
  assert (H : register_for_event one_event 11 7 alice
              = (Return (with_participants concert (∅ ∪ {[ 1 ]}) 1 11),
                 snd (register_for_event one_event 11 7 alice)))
    by reflexivity.
  split; [reflexivity |]. split; [reflexivity |].
  now rewrite (register_for_event_twice one_event 11 12 7 alice _ _ H).
Defined.

Lemma register_then_unregister_witness :
  one_event !! 7 = Some concert
  /\ participants_count concert = Z.of_nat (size (participants concert))
  /\ (id alice ∉ participants concert)
  /\ fst (unregister_from_event
            (snd (register_for_event one_event 11 7 alice)) 12 7 alice)
     = Return "Successfully unregistered from event"%string.
Proof.
  assert (Hout : id alice ∉ participants concert) by set_solver.
  refine (conj eq_refl (conj eq_refl (conj Hout _))).
  now rewrite (register_then_unregister one_event 11 12 7 alice concert
                 eq_refl eq_refl Hout).
Defined.

Lemma participants_count_agrees_witness :
  one_event !! 7 = Some concert
  /\ participants_count concert = Z.of_nat (size (participants concert))
  /\ exists e',
       snd (register_for_event one_event 11 7 alice) !! 7 = Some e'
       /\ participants e' = participants concert ∪ {[id alice]}
       /\ participants_count e' = Z.of_nat (size (participants e')).
Proof.
  refine (conj eq_refl (conj eq_refl _)).
  apply (proj1 (participants_count_agrees one_event 11 7 alice concert
                  eq_refl eq_refl)
           (with_participants concert (∅ ∪ {[ 1 ]}) 1 11)).
  reflexivity.
Defined.

Lemma get_my_created_events_with_status_pages_witness :
  1 <= 20
  /\ pg_pages (get_my_created_events_with_status (fun l => l) one_event 1 20
                 alice) = 1
  /\ (length (pg_items (get_my_created_events_with_status (fun l => l)
                          one_event 1 20 alice)) <= Z.to_nat 20)%nat.
Proof.
  assert (H : 1 <= 20) by (vm_compute; discriminate).
  refine (conj H (conj eq_refl _)).
  apply (proj2 (proj2 (get_my_created_events_with_status_pages
                         (fun l => l) one_event 1 20 alice H))).
Defined.

Lemma get_my_created_events_with_status_all_pages_witness :
  (forall l : list Event, Permutation (rev l) l)
  /\ 1 <= 1
  /\ Permutation
       (List.map base_event
          (concat
             (List.map
                (fun p =>
                   pg_items (get_my_created_events_with_status (@rev Event)
                               two_events (Z.of_nat p) 1 alice))
                (seq 1 (Z.to_nat
                          (pg_pages (get_my_created_events_with_status
                                       (@rev Event) two_events 1 1
                                       alice)))))))
       (List.filter (fun e => organizer_id e =? id alice)
          (map_to_list two_events).*2).
Proof.
  assert (Hp : forall l : list Event, Permutation (rev l) l)
    by (intros l; apply Permutation_sym, Permutation_rev).
  assert (H : 1 <= 1) by (vm_compute; discriminate).
  refine (conj Hp (conj H _)).
  apply (proj2 (get_my_created_events_with_status_all_pages (@rev Event) Hp
                  two_events 1 alice H)).
Defined.

Lemma register_then_requireIdentity_witness :
  fst (register default_settings toy_bcrypt store_alice 5 (fun _ => 0%nat)
         bob_registration)
  = Return (token_response
              (Compact {| alg := "HS256";
                          signer := Some (SECRET_KEY default_settings);
                          payload := claims_of "b@x.com" 5 86405 |})
              {| id := 2; email := "b@x.com"; first_name := "B";
                 last_name := "Y";
                 hashed_password :=
                   "$2b$12$......................Other1234......................";
                 created_at := 5; updated_at := 5 |})
  /\ 86405 <= 5 + ACCESS_TOKEN_EXPIRE_MINUTES default_settings * 60
  /\ exists u,
       requireIdentity default_settings
         (snd (register default_settings toy_bcrypt store_alice 5
                 (fun _ => 0%nat) bob_registration))
         86405
         (bearer (Compact {| alg := "HS256";
                             signer := Some (SECRET_KEY default_settings);
                             payload := claims_of "b@x.com" 5 86405 |}))
       = Return u
       /\ email u = "b@x.com"%string.
Proof.
  assert (H : 86405 <= 5 + ACCESS_TOKEN_EXPIRE_MINUTES default_settings * 60)
    by (vm_compute; discriminate).
  refine (conj eq_refl (conj H _)).
  destruct (register_then_requireIdentity default_settings toy_bcrypt
              store_alice 5 (fun _ => 0%nat) bob_registration _ _ 86405
              eq_refl H) as (u & Hu & He & _).
  exists u. split; [exact Hu | exact He].
Defined.

Lemma get_email_from_token_no_aud_witness :
  aud (payload token_no_aud) = None
  /\ private_extra (payload token_no_aud) = true
  /\ get_email_from_token
       {| SECRET_KEY := "another key"; ALGORITHM := "HS256";
          ACCESS_TOKEN_EXPIRE_MINUTES := 1440 |}
       99999999 (Compact token_no_aud)
     = Return (Some "a@x.com"%string).
Proof.
  refine (conj eq_refl (conj eq_refl _)).
  apply (get_email_from_token_no_aud
           {| SECRET_KEY := "another key"; ALGORITHM := "HS256";
              ACCESS_TOKEN_EXPIRE_MINUTES := 1440 |}
           99999999 token_no_aud eq_refl eq_refl).
Defined.



Section ServiceAgreement.

Variable bcrypt_raw : string -> nat -> string -> string -> string.

(** X28.  The password endpoint and the service's [change_password] do the
    same: they leave the same table, and one raises exactly when the other
    does, with the same exception. *)
Theorem change_password_service_agrees db now rng
    (password_data : PasswordChange) (current_user : User) :
  snd (change_password bcrypt_raw db now rng password_data current_user)
  = snd (AuthService.change_password bcrypt_raw db now rng current_user
           (old_password password_data) (new_password password_data))
  /\ (forall x,
        fst (change_password bcrypt_raw db now rng password_data
               current_user) = Raise x
        <-> fst (AuthService.change_password bcrypt_raw db now rng
                   current_user (old_password password_data)
                   (new_password password_data)) = Raise x).
Proof.
  unfold change_password, AuthService.change_password,
    AuthService.verify_password, AuthService.get_password_hash,
    verify_password, get_password_hash, save.
  destruct (pwd_context_verify bcrypt_raw (old_password password_data)
              (hashed_password current_user)) as [[|]|];
    [destruct (pwd_context_verify bcrypt_raw (new_password password_data)
                 (hashed_password current_user)) as [[|]|];
       [| destruct (pwd_context_hash bcrypt_raw rng
                      (new_password password_data)) |] | |];
    cbn; (split; [reflexivity |]); intros x; split; intros H;
      first [discriminate H | (injection H as <-; reflexivity)].
Qed.

End ServiceAgreement.

Lemma login_hasher_error_reveals_email_witness :
  get_or_none store_alice "b@x.com" = None
  /\ get_or_none store_alice "a@x.com" = Some alice
  /\ is_Some (bcrypt_from_string (hashed_password alice))
  /\ contains_nul (String zero "x") = true
  /\ login default_settings toy_bcrypt store_alice 5
       {| username := "b@x.com"; password := String zero "x" |}
     <> login default_settings toy_bcrypt store_alice 5
          {| username := "a@x.com"; password := String zero "x" |}.
Proof.
  assert (Hp : is_Some (bcrypt_from_string (hashed_password alice)))
    by (eexists; reflexivity).
  refine (conj eq_refl (conj eq_refl (conj Hp (conj eq_refl _)))).
  apply (proj2 (proj2 (login_hasher_error_reveals_email default_settings
                         toy_bcrypt store_alice 5
                         {| username := "b@x.com";
                            password := String zero "x" |}
                         {| username := "a@x.com";
                            password := String zero "x" |}
                         alice eq_refl eq_refl Hp eq_refl))).
Defined.
